(** * Habit tracker: statistics engine and habit service

    Shallow embedding of [app/core/models.py], [app/core/statistics.py],
    [app/core/services.py], the in-memory repositories of
    [app/db/in_memory.py], the habit table of [app/db/sqlite.py] and the
    endpoint functions of [app/api/controllers.py].

    Modelling choices:
    - a [datetime.date] is its proleptic Gregorian ordinal, a [Z];
      [d - timedelta(days=1)] is [d - 1] and [(a - b).days] is [a - b]
      (the OverflowError below [date.min] is not modelled);
    - a [float] log value or goal is a rational [Q]: comparisons are
      exact on the represented values, sums and quotients are exact;
    - [date.today()] is an explicit argument [today];
    - a Python [set[date]] is a duplicate-free [list Z];
    - the habit store is a [gmap string Habit.t], the log store a list
      kept in insertion order;
    - Python recursion depth is a fuel argument: [None] means the
      recursion did not finish (RecursionError or non-termination). *)

From Stdlib Require Import ZArith QArith Lia Permutation Sorted.
From stdpp Require Import base list gmap strings sorting.

(* ------------------------------------------------------------------ *)
(** ** models.py *)

Inductive HabitType := BOOLEAN | NUMERIC.

Module LogEntry.
Record t := mk {
  id : string;
  habit_id : string;
  date : Z;
  value : option Q;
  created_at : Z
}.
End LogEntry.

Module Habit.
Record t := mk {
  id : string;
  name : string;
  description : option string;
  category : option string;
  type : HabitType;
  goal : option Q;
  created_at : Z;
  parent_id : option string;
  subhabit_ids : list string
}.
End Habit.

(* ------------------------------------------------------------------ *)
(** ** statistics.py *)

Record StatisticsResult := mkStatisticsResult {
  current_streak : nat;
  longest_streak : nat;
  total_completions : nat;
  completion_rate : Q;
  average_value : option Q;
  total_days_tracked : nat
}.

(** [StatisticsCalculator._filter_logs_by_date]; [if start:] is a test
    for [None] since a [date] is always truthy. *)
Definition filter_logs_by_date (logs : list LogEntry.t)
    (start end_ : option Z) : list LogEntry.t :=
  let filtered :=
    match start with
    | Some s => List.filter (fun log => Z.leb s log.(LogEntry.date)) logs
    | None => logs
    end in
  match end_ with
  | Some e => List.filter (fun log => Z.leb log.(LogEntry.date) e) filtered
  | None => filtered
  end.

(** [d in s] for a Python set of dates. *)
Definition mem (d : Z) (s : list Z) : bool := existsb (Z.eqb d) s.

(** [s.add(d)]. *)
Definition set_add (d : Z) (s : list Z) : list Z :=
  if mem d s then s else d :: s.

(** [x > 0] on a float. *)
Definition Qgt0 (x : Q) : bool := negb (Qle_bool x 0%Q).

(** The completion loop of [BooleanStatisticsCalculator.calculate]. *)
Fixpoint boolean_completed_loop (completed_dates : list Z)
    (logs : list LogEntry.t) : list Z :=
  match logs with
  | [] => completed_dates
  | log :: rest =>
      let completed_dates' :=
        match log.(LogEntry.value) with
        | Some v =>
            if Qle_bool 1%Q v then set_add log.(LogEntry.date) completed_dates
            else completed_dates
        | None => completed_dates
        end in
      boolean_completed_loop completed_dates' rest
  end.

(** The loop of [NumericStatisticsCalculator.calculate], which collects
    the completed dates and the list [values]. *)
Fixpoint numeric_loop (goal : option Q) (completed_dates : list Z)
    (values : list Q) (logs : list LogEntry.t) : list Z * list Q :=
  match logs with
  | [] => (completed_dates, values)
  | log :: rest =>
      match log.(LogEntry.value) with
      | Some v =>
          let values' := values ++ [v] in
          let completed_dates' :=
            match goal with
            | Some g =>
                if Qle_bool g v then set_add log.(LogEntry.date) completed_dates
                else completed_dates
            | None =>
                if Qgt0 v then set_add log.(LogEntry.date) completed_dates
                else completed_dates
            end in
          numeric_loop goal completed_dates' values' rest
      | None => numeric_loop goal completed_dates values rest
      end
  end.

(** The current-streak [while cursor in completed_dates] loop, with
    fuel. *)
Fixpoint walk_back (completed_dates : list Z) (fuel : nat) (cursor : Z) : nat :=
  match fuel with
  | O => O
  | S f =>
      if mem cursor completed_dates
      then S (walk_back completed_dates f (cursor - 1))
      else O
  end.

(** The longest-streak [for i in range(len(sorted_dates))] loop;
    [prev = None] is the iteration [i == 0]. *)
Fixpoint longest_scan (prev : option Z) (current longest : nat)
    (sorted_dates : list Z) : nat :=
  match sorted_dates with
  | [] => longest
  | d :: rest =>
      let current' :=
        match prev with
        | None => 1%nat
        | Some p => if Z.eqb (d - p) 1 then S current else 1%nat
        end in
      longest_scan (Some d) current' (Nat.max longest current') rest
  end.

(** [StatisticsCalculator._calculate_streaks]; the while loop runs at
    most [len(completed_dates)] times, so fuel [S (length sorted_dates)]
    never runs out (lemma [walk_back_count_from] below). *)
Definition calculate_streaks (completed_dates : list Z) (today : Z) : nat * nat :=
  match completed_dates with
  | [] => (0%nat, 0%nat)
  | _ =>
      let sorted_dates := merge_sort Z.le completed_dates in
      let current_streak := walk_back completed_dates (S (length sorted_dates)) today in
      let longest_streak := longest_scan None 0 0 sorted_dates in
      (current_streak, longest_streak)
  end.

Definition nat_to_Q (n : nat) : Q := inject_Z (Z.of_nat n).

(** [total_completions / total_days if total_days > 0 else 0.0]. *)
Definition rate (total_completions total_days : nat) : Q :=
  if Nat.ltb 0 total_days
  then Qdiv (nat_to_Q total_completions) (nat_to_Q total_days)
  else 0%Q.

(** [sum(values)]. *)
Definition sum (values : list Q) : Q := fold_left Qplus values 0%Q.

Definition BooleanStatisticsCalculator_calculate (habit : Habit.t)
    (logs : list LogEntry.t) (start end_ : option Z) (today : Z)
    : StatisticsResult :=
  let filtered_logs := filter_logs_by_date logs start end_ in
  let completed_dates := boolean_completed_loop [] filtered_logs in
  let '(cur, lng) := calculate_streaks completed_dates today in
  let total_completions := length completed_dates in
  let total_days := length filtered_logs in
  mkStatisticsResult cur lng total_completions
    (rate total_completions total_days) None total_days.

Definition NumericStatisticsCalculator_calculate (habit : Habit.t)
    (logs : list LogEntry.t) (start end_ : option Z) (today : Z)
    : StatisticsResult :=
  let filtered_logs := filter_logs_by_date logs start end_ in
  let '(completed_dates, values) :=
    numeric_loop habit.(Habit.goal) [] [] filtered_logs in
  let '(cur, lng) := calculate_streaks completed_dates today in
  let total_completions := length completed_dates in
  let total_days := length filtered_logs in
  let average_value :=
    match values with
    | [] => None
    | _ => Some (Qdiv (sum values) (nat_to_Q (length values)))
    end in
  mkStatisticsResult cur lng total_completions
    (rate total_completions total_days) average_value total_days.

(** [StatisticsCalculatorFactory.get_calculator(habit.type).calculate]:
    the registry maps both members of the closed [HabitType]. *)
Definition calculate (habit : Habit.t) (logs : list LogEntry.t)
    (start end_ : option Z) (today : Z) : StatisticsResult :=
  match habit.(Habit.type) with
  | BOOLEAN => BooleanStatisticsCalculator_calculate habit logs start end_ today
  | NUMERIC => NumericStatisticsCalculator_calculate habit logs start end_ today
  end.

(** The set of completed dates each calculator builds. *)
Definition completed_dates_of (habit : Habit.t) (filtered_logs : list LogEntry.t)
    : list Z :=
  match habit.(Habit.type) with
  | BOOLEAN => boolean_completed_loop [] filtered_logs
  | NUMERIC => fst (numeric_loop habit.(Habit.goal) [] [] filtered_logs)
  end.

(* ------------------------------------------------------------------ *)
(** ** In-memory repositories (db/in_memory.py) *)

Record State := mkState {
  habits : gmap string Habit.t;      (* InMemoryHabitRepository._storage *)
  logs : list LogEntry.t             (* InMemoryLogRepository._storage *)
}.

Definition empty_state : State := mkState ∅ [].

(** [ValueError("Habit not found")] / [ValueError("Parent habit not
    found")] raised by the service, and [KeyError] raised by
    [HabitRepository.update]. *)
Inductive error := NotFound | KeyError.

Inductive result (A : Type) := Ok (a : A) | Err (e : error).
Arguments Ok {A} a.
Arguments Err {A} e.

Definition habit_repo_add (habit : Habit.t) (st : State) : State :=
  mkState (<[habit.(Habit.id) := habit]> st.(habits)) st.(logs).

Definition habit_repo_get (habit_id : string) (st : State) : option Habit.t :=
  st.(habits) !! habit_id.

Definition habit_repo_update (habit : Habit.t) (st : State) : State * result unit :=
  match st.(habits) !! habit.(Habit.id) with
  | None => (st, Err KeyError)
  | Some _ => (mkState (<[habit.(Habit.id) := habit]> st.(habits)) st.(logs), Ok tt)
  end.

(** [self._storage.pop(habit_id, None)]. *)
Definition habit_repo_delete (habit_id : string) (st : State) : State :=
  mkState (delete habit_id st.(habits)) st.(logs).

Definition log_repo_add (log : LogEntry.t) (st : State) : State :=
  mkState st.(habits) (st.(logs) ++ [log]).

(** [sorted(logs, key=lambda log: log.date)], a stable sort. *)
Fixpoint insert_by_date (x : LogEntry.t) (l : list LogEntry.t) : list LogEntry.t :=
  match l with
  | [] => [x]
  | y :: r =>
      if Z.leb x.(LogEntry.date) y.(LogEntry.date) then x :: y :: r
      else y :: insert_by_date x r
  end.

Definition sort_by_date (l : list LogEntry.t) : list LogEntry.t :=
  fold_right insert_by_date [] l.

Definition log_repo_list_for_habit (habit_id : string) (start end_ : option Z)
    (st : State) : list LogEntry.t :=
  let l := List.filter (fun log => String.eqb log.(LogEntry.habit_id) habit_id) st.(logs) in
  let l := match start with
           | Some s => List.filter (fun log => Z.leb s log.(LogEntry.date)) l
           | None => l end in
  let l := match end_ with
           | Some e => List.filter (fun log => Z.leb log.(LogEntry.date) e) l
           | None => l end in
  sort_by_date l.

(* ------------------------------------------------------------------ *)
(** ** services.py *)

(** [schemas.HabitUpdate]; [None] is an omitted (or null) field. *)
Record HabitUpdate := mkHabitUpdate {
  upd_name : option string;
  upd_description : option string;
  upd_category : option string;
  upd_goal : option Q
}.

Definition create_habit (habit : Habit.t) (st : State) : State :=
  habit_repo_add habit st.

Definition get_habit (habit_id : string) (st : State) : option Habit.t :=
  habit_repo_get habit_id st.

(** The four [if update.x is not None: habit.x = update.x] steps. *)
Definition apply_update (habit : Habit.t) (update : HabitUpdate) : Habit.t :=
  Habit.mk habit.(Habit.id)
    (match update.(upd_name) with Some x => x | None => habit.(Habit.name) end)
    (match update.(upd_description) with
     | Some x => Some x | None => habit.(Habit.description) end)
    (match update.(upd_category) with
     | Some x => Some x | None => habit.(Habit.category) end)
    habit.(Habit.type)
    (match update.(upd_goal) with Some x => Some x | None => habit.(Habit.goal) end)
    habit.(Habit.created_at) habit.(Habit.parent_id) habit.(Habit.subhabit_ids).

Definition update_habit (habit_id : string) (update : HabitUpdate) (st : State)
    : State * result Habit.t :=
  match habit_repo_get habit_id st with
  | None => (st, Err NotFound)
  | Some habit =>
      let habit' := apply_update habit update in
      match habit_repo_update habit' st with
      | (st', Ok _) => (st', Ok habit')
      | (st', Err e) => (st', Err e)
      end
  end.

(** [for subhabit_id in habit.subhabit_ids: self.delete_habit(subhabit_id)];
    an exception stops the loop and propagates. *)
Fixpoint delete_each (del : string -> State -> option (State * result unit))
    (ids : list string) (st : State) : option (State * result unit) :=
  match ids with
  | [] => Some (st, Ok tt)
  | i :: rest =>
      match del i st with
      | Some (st', Ok _) => delete_each del rest st'
      | other => other
      end
  end.

(** [HabitService.delete_habit]; [fuel] bounds the recursion depth. *)
Fixpoint delete_habit (fuel : nat) (habit_id : string) (st : State)
    : option (State * result unit) :=
  match fuel with
  | O => None
  | S f =>
      match habit_repo_get habit_id st with
      | None => Some (st, Err NotFound)
      | Some habit =>
          match delete_each (delete_habit f) habit.(Habit.subhabit_ids) st with
          | Some (st', Ok _) => Some (habit_repo_delete habit_id st', Ok tt)
          | other => other
          end
      end
  end.

Definition set_parent_id (habit : Habit.t) (p : option string) : Habit.t :=
  Habit.mk habit.(Habit.id) habit.(Habit.name) habit.(Habit.description)
    habit.(Habit.category) habit.(Habit.type) habit.(Habit.goal)
    habit.(Habit.created_at) p habit.(Habit.subhabit_ids).

Definition set_subhabit_ids (habit : Habit.t) (ids : list string) : Habit.t :=
  Habit.mk habit.(Habit.id) habit.(Habit.name) habit.(Habit.description)
    habit.(Habit.category) habit.(Habit.type) habit.(Habit.goal)
    habit.(Habit.created_at) habit.(Habit.parent_id) ids.

Definition add_subhabit (parent_id : string) (subhabit : Habit.t) (st : State)
    : State * result unit :=
  match habit_repo_get parent_id st with
  | None => (st, Err NotFound)
  | Some parent =>
      let subhabit' := set_parent_id subhabit (Some parent_id) in
      let parent' := set_subhabit_ids parent
                       (parent.(Habit.subhabit_ids) ++ [subhabit.(Habit.id)]) in
      habit_repo_update parent' (habit_repo_add subhabit' st)
  end.

(** [LogEntry.create] draws a fresh [log_id] and the time [now]. *)
Definition record_log (log_id : string) (now : Z) (habit_id : string)
    (date_ : Z) (value : option Q) (st : State) : State * result LogEntry.t :=
  match habit_repo_get habit_id st with
  | None => (st, Err NotFound)
  | Some _ =>
      let log := LogEntry.mk log_id habit_id date_ value now in
      (log_repo_add log st, Ok log)
  end.

Definition get_logs (habit_id : string) (start end_ : option Z) (st : State)
    : State * result (list LogEntry.t) :=
  match habit_repo_get habit_id st with
  | None => (st, Err NotFound)
  | Some _ => (st, Ok (log_repo_list_for_habit habit_id start end_ st))
  end.

(** [HabitService.get_statistics]; the returned dict is the habit id and
    the [StatisticsResult]. *)
Definition get_statistics (today : Z) (habit_id : string) (start end_ : option Z)
    (st : State) : State * result (string * StatisticsResult) :=
  match habit_repo_get habit_id st with
  | None => (st, Err NotFound)
  | Some habit =>
      let logs := log_repo_list_for_habit habit_id start end_ st in
      (st, Ok (habit_id, calculate habit logs start end_ today))
  end.

(* ------------------------------------------------------------------ *)
(** ** api/controllers.py *)

(** [schemas.HabitCreate] (validated by pydantic before the call). *)
Record HabitCreate := mkHabitCreate {
  c_name : string;
  c_description : option string;
  c_category : option string;
  c_type : HabitType;
  c_goal : option Q;
  c_parent_id : option string
}.

(** [create_habit] endpoint: [new_id] is [str(uuid.uuid4())], [now] the
    creation time; [parent_id] is copied from the payload. *)
Definition api_create_habit (new_id : string) (now : Z) (payload : HabitCreate)
    (st : State) : State * Habit.t :=
  let habit := Habit.mk new_id payload.(c_name) payload.(c_description)
                 payload.(c_category) payload.(c_type) payload.(c_goal) now
                 payload.(c_parent_id) [] in
  (create_habit habit st, habit).

(** [add_subhabit] endpoint. *)
Definition api_add_subhabit (new_id : string) (now : Z) (habit_id : string)
    (payload : HabitCreate) (st : State) : State * result unit :=
  let sub := Habit.mk new_id payload.(c_name) payload.(c_description)
               payload.(c_category) payload.(c_type) payload.(c_goal) now
               (Some habit_id) [] in
  add_subhabit habit_id sub st.

(** A [uuid4] id has never been handed out: it is no key of the store
    and no entry of a [subhabit_ids] list. *)
Definition fresh_id (st : State) (x : string) : Prop :=
  st.(habits) !! x = None /\
  forall k h, st.(habits) !! k = Some h -> ~ In x h.(Habit.subhabit_ids).

(** One call of a public endpoint. *)
Inductive api_step : State -> State -> Prop :=
| step_create new_id now payload st :
    fresh_id st new_id -> api_step st (fst (api_create_habit new_id now payload st))
| step_add_subhabit new_id now habit_id payload st :
    fresh_id st new_id ->
    api_step st (fst (api_add_subhabit new_id now habit_id payload st))
| step_update habit_id update st :
    api_step st (fst (update_habit habit_id update st))
| step_delete fuel habit_id st st' r :
    delete_habit fuel habit_id st = Some (st', r) -> api_step st st'
| step_record_log log_id now habit_id date_ value st :
    api_step st (fst (record_log log_id now habit_id date_ value st)).

Inductive reachable : State -> Prop :=
| reach_init : reachable empty_state
| reach_step st st' : reachable st -> api_step st st' -> reachable st'.

(** A log entry of habit ["h"] on day [d]. *)
Definition log_at (d : Z) (v : option Q) : LogEntry.t :=
  LogEntry.mk "l" "h" d v 0.

(* ------------------------------------------------------------------ *)
(** ** The spec's vocabulary *)

(** The inclusive date window. *)
Definition in_window (start end_ : option Z) (d : Z) : Prop :=
  match start with Some s => (s <= d)%Z | None => True end /\
  match end_ with Some e => (d <= e)%Z | None => True end.

(** The spec's completion rule for one entry value. *)
Definition completes_spec (habit : Habit.t) (v : option Q) : Prop :=
  match v with
  | None => False
  | Some x =>
      match habit.(Habit.type) with
      | BOOLEAN => (1 <= x)%Q
      | NUMERIC =>
          match habit.(Habit.goal) with
          | Some g => (g <= x)%Q
          | None => (0 < x)%Q
          end
      end
  end.

(** [k] consecutive calendar days starting at [d] all lie in [s]. *)
Definition run (s : list Z) (d : Z) (k : nat) : Prop :=
  forall j, (j < k)%nat -> In (d + Z.of_nat j)%Z s.

(** Walking backward from [c], exactly [n] consecutive days lie in [s]. *)
Definition count_from (s : list Z) (c : Z) (n : nat) : Prop :=
  (forall j, (j < n)%nat -> In (c - Z.of_nat j)%Z s) /\ ~ In (c - Z.of_nat n)%Z s.

(** All non-null values of a list of entries, completed or not. *)
Definition present_values (l : list LogEntry.t) : list Q :=
  flat_map (fun log => match log.(LogEntry.value) with
                       | Some v => [v] | None => [] end) l.

(** The current-streak loop run from [x] with enough fuel: the length of
    the run of days of [s] ending at [x]. *)
Definition back_run (s : list Z) (x : Z) : nat := walk_back s (S (length s)) x.

(** The largest [back_run] over the dates of [l]. *)
Definition max_back_run (s l : list Z) : nat :=
  fold_right (fun x m => Nat.max (back_run s x) m) 0%nat l.

(** The arithmetic mean. *)
Definition mean (vs : list Q) : Q :=
  Qdiv (fold_right Qplus 0%Q vs) (nat_to_Q (length vs)).

(** The spec's linkage invariant of the habit store. *)
Definition linkage_invariant (st : State) : Prop :=
  (forall k h p, st.(habits) !! k = Some h -> h.(Habit.parent_id) = Some p ->
     is_Some (st.(habits) !! p)) /\
  (forall k h c, st.(habits) !! k = Some h -> In c h.(Habit.subhabit_ids) ->
     exists ch, st.(habits) !! c = Some ch /\ ch.(Habit.parent_id) = Some k).

(** What the service does maintain: every habit is stored under its own
    id, and a listed sub-habit that is still stored points back. *)
Definition backlink_invariant (st : State) : Prop :=
  (forall k h, st.(habits) !! k = Some h -> h.(Habit.id) = k) /\
  (forall k h c ch, st.(habits) !! k = Some h -> In c h.(Habit.subhabit_ids) ->
     st.(habits) !! c = Some ch -> ch.(Habit.parent_id) = Some k).

(** [st'] is [st] with some habits removed and the same logs. *)
Definition shrinks (st st' : State) : Prop :=
  (forall k h, st'.(habits) !! k = Some h -> st.(habits) !! k = Some h) /\
  st'.(logs) = st.(logs).

(** Habit [h] is stored as [H] and [d] is absent. *)
Definition keeps_habit (h d : string) (H : Habit.t) (st : State) : Prop :=
  st.(habits) !! h = Some H /\ st.(habits) !! d = None.

(* ------------------------------------------------------------------ *)
(** ** api/controllers.py: responses *)

(** [schemas.HabitRead], built from the habit object's attributes. *)
Module HabitRead.
Record t := mk {
  id : string;
  name : string;
  description : option string;
  category : option string;
  type : HabitType;
  goal : option Q;
  parent_id : option string
}.
End HabitRead.

Definition habit_read (h : Habit.t) : HabitRead.t :=
  HabitRead.mk h.(Habit.id) h.(Habit.name) h.(Habit.description)
    h.(Habit.category) h.(Habit.type) h.(Habit.goal) h.(Habit.parent_id).

(** [schemas.LogRead], built from the log object's attributes. *)
Module LogRead.
Record t := mk {
  id : string;
  habit_id : string;
  date : Z;
  value : option Q
}.
End LogRead.

Definition log_read (log : LogEntry.t) : LogRead.t :=
  LogRead.mk log.(LogEntry.id) log.(LogEntry.habit_id) log.(LogEntry.date)
    log.(LogEntry.value).

(** What an endpoint produces: a normal return with its status code, a
    raised [HTTPException], or an exception the handler does not catch
    (answered 500 by the framework). *)
Inductive response (A : Type) :=
| Response (status_code : Z) (body : A)
| HTTPException (status_code : Z)
| InternalServerError.
Arguments Response {A} status_code body.
Arguments HTTPException {A} status_code.
Arguments InternalServerError {A}.

Definition api_get_habit (habit_id : string) (st : State) : response HabitRead.t :=
  match get_habit habit_id st with
  | None => HTTPException 404
  | Some habit => Response 200 (habit_read habit)
  end.


(** [None]: the recursion did not finish (a [RecursionError], answered
    500, with the store as the recursion left it). *)
Definition api_delete_habit (fuel : nat) (habit_id : string) (st : State)
    : option (State * response unit) :=
  match delete_habit fuel habit_id st with
  | Some (st', Ok _) => Some (st', Response 204 tt)
  | Some (st', Err NotFound) => Some (st', HTTPException 404)
  | Some (st', Err KeyError) => Some (st', InternalServerError)
  | None => None
  end.


Definition api_record_log (log_id : string) (now : Z) (habit_id : string)
    (date_ : Z) (value : option Q) (st : State) : State * response LogRead.t :=
  let '(st', r) := record_log log_id now habit_id date_ value st in
  (st', match r with
        | Ok log => Response 201 (log_read log)
        | Err NotFound => HTTPException 404
        | Err KeyError => InternalServerError
        end).

Definition api_get_logs (habit_id : string) (start end_ : option Z) (st : State)
    : response (list LogRead.t) :=
  match snd (get_logs habit_id start end_ st) with
  | Ok logs => Response 200 (map log_read logs)
  | Err NotFound => HTTPException 404
  | Err KeyError => InternalServerError
  end.

Definition api_get_stats (today : Z) (habit_id : string) (start end_ : option Z)
    (st : State) : response (string * StatisticsResult) :=
  match snd (get_statistics today habit_id start end_ st) with
  | Ok stats => Response 200 stats
  | Err NotFound => HTTPException 404
  | Err KeyError => InternalServerError
  end.

Definition zero_result : StatisticsResult :=
  mkStatisticsResult 0 0 0 0%Q None 0.

(** The habit's entries in the window, in insertion order. *)
Definition habit_logs_in_window (habit_id : string) (start end_ : option Z)
    (logs : list LogEntry.t) : list LogEntry.t :=
  List.filter (fun log => String.eqb log.(LogEntry.habit_id) habit_id &&
                 match start with Some s => Z.leb s log.(LogEntry.date) | None => true end &&
                 match end_ with Some e => Z.leb log.(LogEntry.date) e | None => true end)
    logs.

Definition logs_on (d : Z) (l : list LogEntry.t) : list LogEntry.t :=
  List.filter (fun log => Z.eqb log.(LogEntry.date) d) l.

Definition by_date (a b : LogEntry.t) : Prop := (a.(LogEntry.date) <= b.(LogEntry.date))%Z.


(* ------------------------------------------------------------------ *)
(** ** db/sqlite.py: SQLiteHabitRepository *)

(** [HabitType(...).value] and the [HabitType(text)] lookup, which
    raises [ValueError] ([None]) on any other text. *)
Definition habit_type_value (t : HabitType) : string :=
  match t with BOOLEAN => "boolean" | NUMERIC => "numeric" end.

Definition habit_type_of_value (s : string) : option HabitType :=
  if String.eqb s "boolean" then Some BOOLEAN
  else if String.eqb s "numeric" then Some NUMERIC
  else None.

(** The JSON text of the [subhabit_ids] column. A Python [str] is a
    Rocq [string] here, so its code points are below 256. *)
Definition quote : Ascii.ascii := Ascii.ascii_of_nat 34.
Definition backslash : Ascii.ascii := Ascii.ascii_of_nat 92.

(** A lowercase hexadecimal digit, as [format(n, '04x')] writes it. *)
Definition hex_digit (n : nat) : Ascii.ascii :=
  Ascii.ascii_of_nat (if Nat.ltb n 10 then 48 + n else 87 + n).

(** [json.encoder.ESCAPE_DCT] and the [\u00xx] fallback for the other
    characters outside [' '..'~'] ([ensure_ascii=True]). *)
Definition json_escape_char (c : Ascii.ascii) : string :=
  let n := Ascii.nat_of_ascii c in
  if Nat.eqb n 34 then String backslash (String quote EmptyString)
  else if Nat.eqb n 92 then String backslash (String backslash EmptyString)
  else if Nat.eqb n 8 then "\b"
  else if Nat.eqb n 12 then "\f"
  else if Nat.eqb n 10 then "\n"
  else if Nat.eqb n 13 then "\r"
  else if Nat.eqb n 9 then "\t"
  else if Nat.leb 32 n && Nat.leb n 126 then String c EmptyString
  else ("\u00" ++ String (hex_digit (n / 16)) (String (hex_digit (n mod 16)) EmptyString))%string.

Fixpoint json_escape (s : string) : string :=
  match s with
  | EmptyString => EmptyString
  | String c r => (json_escape_char c ++ json_escape r)%string
  end.

(** [encode_basestring_ascii]. *)
Definition json_encode_string (s : string) : string :=
  String quote (json_escape s ++ String quote EmptyString)%string.

(** [json.dumps] of a [list[str]], with the default [', '] separator. *)
Definition json_dumps_ids (ids : list string) : string :=
  match ids with
  | [] => "[]"
  | x :: rest =>
      ("[" ++ json_encode_string x ++
       List.fold_right (fun y acc => ", " ++ json_encode_string y ++ acc) "]" rest)%string
  end.

(** A printable ASCII character, [' '..'~']. *)
Definition printable (c : Ascii.ascii) : Prop :=
  32 <= Ascii.nat_of_ascii c <= 126.

(** [json.decoder.WHITESPACE]: space, tab, newline, carriage return. *)
Definition is_ws (c : Ascii.ascii) : bool :=
  let n := Ascii.nat_of_ascii c in
  Nat.eqb n 32 || Nat.eqb n 9 || Nat.eqb n 10 || Nat.eqb n 13.

Fixpoint skip_ws (s : string) : string :=
  match s with
  | String c r => if is_ws c then skip_ws r else s
  | EmptyString => EmptyString
  end.

Definition hex_value (c : Ascii.ascii) : option nat :=
  let n := Ascii.nat_of_ascii c in
  if Nat.leb 48 n && Nat.leb n 57 then Some (n - 48)
  else if Nat.leb 97 n && Nat.leb n 102 then Some (n - 87)
  else if Nat.leb 65 n && Nat.leb n 70 then Some (n - 55)
  else None.

(** The four hex digits of a [\uXXXX] escape. *)
Definition hex4 (a b c d : Ascii.ascii) : option nat :=
  match hex_value a, hex_value b, hex_value c, hex_value d with
  | Some x, Some y, Some z, Some w => Some (((x * 16 + y) * 16 + z) * 16 + w)
  | _, _, _, _ => None
  end.

(** The [BACKSLASH] table of the decoder. *)
Definition json_unescape (e : Ascii.ascii) : option Ascii.ascii :=
  let n := Ascii.nat_of_ascii e in
  if Nat.eqb n 34 then Some quote
  else if Nat.eqb n 92 then Some backslash
  else if Nat.eqb n 47 then Some e
  else if Nat.eqb n 98 then Some (Ascii.ascii_of_nat 8)
  else if Nat.eqb n 102 then Some (Ascii.ascii_of_nat 12)
  else if Nat.eqb n 110 then Some (Ascii.ascii_of_nat 10)
  else if Nat.eqb n 114 then Some (Ascii.ascii_of_nat 13)
  else if Nat.eqb n 116 then Some (Ascii.ascii_of_nat 9)
  else None.

(** [scanstring] (strict mode) after the opening quote: the decoded
    contents and the text after the closing quote. [None] is a
    [JSONDecodeError] (unterminated string, control character, bad
    escape) or a [\uXXXX] code point of 256 or more, which no string of
    the model holds. *)
Fixpoint scanstring (s : string) : option (string * string) :=
  match s with
  | EmptyString => None
  | String c r =>
      let n := Ascii.nat_of_ascii c in
      if Nat.eqb n 34 then Some (EmptyString, r)
      else if Nat.eqb n 92 then
        match r with
        | String e r' =>
            if Nat.eqb (Ascii.nat_of_ascii e) 117 then
              match r' with
              | String a (String b (String c' (String d r''))) =>
                  match hex4 a b c' d with
                  | Some u =>
                      if Nat.ltb u 256 then
                        match scanstring r'' with
                        | Some (x, rest) => Some (String (Ascii.ascii_of_nat u) x, rest)
                        | None => None
                        end
                      else None
                  | None => None
                  end
              | _ => None
              end
            else
              match json_unescape e with
              | Some ch =>
                  match scanstring r' with
                  | Some (x, rest) => Some (String ch x, rest)
                  | None => None
                  end
              | None => None
              end
        | EmptyString => None
        end
      else if Nat.ltb n 32 then None
      else
        match scanstring r with
        | Some (x, rest) => Some (String c x, rest)
        | None => None
        end
  end.

(** The loop of [JSONArray] once a value is expected. Only string
    values are accepted ([None] for any other JSON value, which the
    [subhabit_ids] column may not hold). *)
Fixpoint parse_items (fuel : nat) (s : string) : option (list string * string) :=
  match fuel with
  | O => None
  | S f =>
      match s with
      | String c r =>
          if Nat.eqb (Ascii.nat_of_ascii c) 34 then
            match scanstring r with
            | Some (x, rest) =>
                match skip_ws rest with
                | String d rest' =>
                    if Nat.eqb (Ascii.nat_of_ascii d) 93 then Some ([x], rest')
                    else if Nat.eqb (Ascii.nat_of_ascii d) 44 then
                      match parse_items f (skip_ws rest') with
                      | Some (xs, t) => Some (x :: xs, t)
                      | None => None
                      end
                    else None
                | EmptyString => None
                end
            | None => None
            end
          else None
      | EmptyString => None
      end
  end.

(** [json.loads] of the column, read as a [list[str]]: leading
    whitespace, an array, trailing whitespace and nothing else. *)
Definition json_loads_ids (s : string) : option (list string) :=
  match skip_ws s with
  | String c r =>
      if Nat.eqb (Ascii.nat_of_ascii c) 91 then
        let r := skip_ws r in
        match r with
        | String d t =>
            if Nat.eqb (Ascii.nat_of_ascii d) 93 then
              match skip_ws t with EmptyString => Some [] | _ => None end
            else
              match parse_items (String.length r) r with
              | Some (xs, t') => match skip_ws t' with EmptyString => Some xs | _ => None end
              | None => None
              end
        | EmptyString => None
        end
      else None
  | EmptyString => None
  end.

(** A row of table [habits]. [created_at] holds the habit's datetime
    (the [isoformat] / [fromisoformat] text round trip is not
    modelled). *)
Module HabitRow.
Record t := mk {
  id : string;
  name : string;
  description : option string;
  category : option string;
  type : string;
  goal : option Q;
  created_at : Z;
  parent_id : option string;
  subhabit_ids : string
}.
End HabitRow.

(** [sqlite3.IntegrityError] (primary key taken), the [KeyError] of
    [update], and the [ValueError] of [_habit_from_row]. *)
Inductive sqlite_error := IntegrityError | SQLiteKeyError | ValueError.

Inductive sqlite_result (A : Type) := SOk (a : A) | SErr (e : sqlite_error).
Arguments SOk {A} a.
Arguments SErr {A} e.

(** The parameters of the [INSERT] of [add]. *)
Definition habit_to_row (habit : Habit.t) : HabitRow.t :=
  HabitRow.mk habit.(Habit.id) habit.(Habit.name) habit.(Habit.description)
    habit.(Habit.category) (habit_type_value habit.(Habit.type)) habit.(Habit.goal)
    habit.(Habit.created_at) habit.(Habit.parent_id)
    (json_dumps_ids habit.(Habit.subhabit_ids)).

(** [_habit_from_row]; [None] is the [ValueError] of [HabitType(row[4])]
    or of [json.loads(row[8])]. *)
Definition habit_from_row (row : HabitRow.t) : option Habit.t :=
  match habit_type_of_value row.(HabitRow.type), json_loads_ids row.(HabitRow.subhabit_ids) with
  | Some t, Some ids =>
      Some (Habit.mk row.(HabitRow.id) row.(HabitRow.name) row.(HabitRow.description)
              row.(HabitRow.category) t row.(HabitRow.goal) row.(HabitRow.created_at)
              row.(HabitRow.parent_id) ids)
  | _, _ => None
  end.

Definition sqlite_habit_add (habit : Habit.t) (tbl : gmap string HabitRow.t) : sqlite_result (gmap string HabitRow.t) :=
  match tbl !! habit.(Habit.id) with
  | Some _ => SErr IntegrityError
  | None => SOk (<[habit.(Habit.id) := habit_to_row habit]> tbl)
  end.

Definition sqlite_habit_get (habit_id : string) (tbl : gmap string HabitRow.t)
    : sqlite_result (option Habit.t) :=
  match tbl !! habit_id with
  | None => SOk None
  | Some row =>
      match habit_from_row row with
      | Some h => SOk (Some h)
      | None => SErr ValueError
      end
  end.

(** [UPDATE habits SET name, description, category, goal, subhabit_ids
    WHERE id = ?]; no row ([rowcount == 0]) raises [KeyError] and the
    connection rolls back. *)
Definition sqlite_habit_update (habit : Habit.t) (tbl : gmap string HabitRow.t)
    : sqlite_result (gmap string HabitRow.t) :=
  match tbl !! habit.(Habit.id) with
  | None => SErr SQLiteKeyError
  | Some row =>
      SOk (<[habit.(Habit.id) :=
              HabitRow.mk row.(HabitRow.id) habit.(Habit.name) habit.(Habit.description)
                habit.(Habit.category) row.(HabitRow.type) habit.(Habit.goal)
                row.(HabitRow.created_at) row.(HabitRow.parent_id)
                (json_dumps_ids habit.(Habit.subhabit_ids))]> tbl)
  end.

Definition sqlite_habit_delete (habit_id : string) (tbl : gmap string HabitRow.t) : gmap string HabitRow.t :=
  delete habit_id tbl.


(** The habits a table decodes to, as [get] reads them. *)
Definition table_view (tbl : gmap string HabitRow.t) : gmap string Habit.t :=
  omap habit_from_row tbl.

(** Every row is stored under its own [id] and decodes. *)
Definition table_ok (tbl : gmap string HabitRow.t) : Prop :=
  map_Forall (fun k row => row.(HabitRow.id) = k /\ is_Some (habit_from_row row)) tbl.

(** An outcome of a [HabitService] method over the SQLite repository:
    a value, the service's own [ValueError("... not found")], or an
    exception raised by the repository. *)
Inductive sqlite_outcome (A : Type) :=
| Done (a : A)
| ServiceNotFound
| Raised (e : sqlite_error).
Arguments Done {A} a.
Arguments ServiceNotFound {A}.
Arguments Raised {A} e.

(** [HabitService.create_habit] with [SQLiteHabitRepository]. *)
Definition sqlite_create_habit (habit : Habit.t) (tbl : gmap string HabitRow.t)
    : gmap string HabitRow.t * sqlite_outcome unit :=
  match sqlite_habit_add habit tbl with
  | SOk tbl' => (tbl', Done tt)
  | SErr e => (tbl, Raised e)
  end.

(** [HabitService.update_habit] with [SQLiteHabitRepository]. *)
Definition sqlite_update_habit (habit_id : string) (update : HabitUpdate)
    (tbl : gmap string HabitRow.t) : gmap string HabitRow.t * sqlite_outcome Habit.t :=
  match sqlite_habit_get habit_id tbl with
  | SErr e => (tbl, Raised e)
  | SOk None => (tbl, ServiceNotFound)
  | SOk (Some habit) =>
      let habit' := apply_update habit update in
      match sqlite_habit_update habit' tbl with
      | SOk tbl' => (tbl', Done habit')
      | SErr e => (tbl, Raised e)
      end
  end.

(** [HabitService.add_subhabit] with [SQLiteHabitRepository]: each
    repository call commits on its own, so a failing [update] leaves
    the [add] in place. *)
Definition sqlite_add_subhabit (parent_id : string) (subhabit : Habit.t)
    (tbl : gmap string HabitRow.t) : gmap string HabitRow.t * sqlite_outcome unit :=
  match sqlite_habit_get parent_id tbl with
  | SErr e => (tbl, Raised e)
  | SOk None => (tbl, ServiceNotFound)
  | SOk (Some parent) =>
      let subhabit' := set_parent_id subhabit (Some parent_id) in
      let parent' := set_subhabit_ids parent
                       (parent.(Habit.subhabit_ids) ++ [subhabit.(Habit.id)]) in
      match sqlite_habit_add subhabit' tbl with
      | SErr e => (tbl, Raised e)
      | SOk tbl1 =>
          match sqlite_habit_update parent' tbl1 with
          | SOk tbl2 => (tbl2, Done tt)
          | SErr e => (tbl1, Raised e)
          end
      end
  end.

(** The in-memory and the SQLite outcome of the same call agree. *)
Definition outcome_matches {A : Type} (r : result A) (o : sqlite_outcome A) : Prop :=
  match r, o with
  | Ok a, Done b => a = b
  | Err NotFound, ServiceNotFound => True
  | _, _ => False
  end.


(* ================================================================== *)
(** * Properties *)

(** Scenario C of the test suite, numeric habit with goal 10. *)

Example scenario_C :
  let h := Habit.mk "h" "Read" None None NUMERIC (Some 10%Q) 0 None [] in
  let r := calculate h [log_at 100 (Some 15%Q); log_at 99 (Some 12%Q); log_at 98 (Some 5%Q)]
             None None 100 in
  (r.(total_completions), r.(current_streak), r.(longest_streak)) = (2%nat, 2%nat, 2%nat).
Proof. vm_compute. reflexivity. Qed.


(* ------------------------------------------------------------------ *)
(** ** Completed dates *)

Lemma mem_In (d : Z) (s : list Z) : mem d s = true <-> In d s.
Proof.
  unfold mem. rewrite existsb_exists. split.
  - intros (x & Hx & E). apply Z.eqb_eq in E. subst. exact Hx.
  - intros H. exists d. split; [exact H | apply Z.eqb_refl].
Qed.

Lemma mem_false (d : Z) (s : list Z) : mem d s = false <-> ~ In d s.
Proof.
  rewrite <- mem_In. destruct (mem d s); split; congruence.
Qed.

Lemma set_add_In (x d : Z) (s : list Z) : In d (set_add x s) <-> d = x \/ In d s.
Proof.
  unfold set_add. destruct (mem x s) eqn:E.
  - apply mem_In in E. split; [tauto|]. intros [->|H]; assumption.
  - simpl. split; intros [H|H]; auto.
Qed.

Lemma set_add_NoDup (x : Z) (s : list Z) : List.NoDup s -> List.NoDup (set_add x s).
Proof.
  unfold set_add. destruct (mem x s) eqn:E; [tauto|].
  apply mem_false in E. intros H. simpl. apply List.NoDup_cons; assumption.
Qed.

Create HintDb habits.
#[local] Hint Resolve set_add_NoDup : habits.

Lemma Qgt0_spec (x : Q) : Qgt0 x = true <-> (0 < x)%Q.
Proof.
  unfold Qgt0. destruct (Qle_bool x 0) eqn:E; simpl.
  - apply Qle_bool_iff in E. split; [discriminate|].
    intros H. exfalso. apply (Qlt_not_le 0 x); assumption.
  - split; [intros _|reflexivity].
    apply Qnot_le_lt. intros H. apply Qle_bool_iff in H. congruence.
Qed.

Lemma boolean_completed_loop_In (acc : list Z) (l : list LogEntry.t) (d : Z) :
  In d (boolean_completed_loop acc l) <->
  In d acc \/ exists log, In log l /\ log.(LogEntry.date) = d /\
    exists v, log.(LogEntry.value) = Some v /\ (1 <= v)%Q.
Proof.
  revert acc. induction l as [|log rest IH]; intros acc; simpl.
  - split; [tauto|]. intros [H|(? & [] & _)]. exact H.
  - rewrite IH. destruct (LogEntry.value log) as [v|] eqn:Ev.
    + destruct (Qle_bool 1 v) eqn:Eq.
      * apply Qle_bool_iff in Eq. rewrite set_add_In. split.
        -- intros [[->|H]|(l' & Hl' & Hd & Hv)]; eauto 10.
        -- intros [H|(l' & [<-|Hl'] & Hd & Hv)]; eauto 10.
      * split.
        -- intros [H|(l' & Hl' & Hd & Hv)]; eauto 10.
        -- intros [H|(l' & [<-|Hl'] & Hd & v' & Hv & Hle)]; eauto 10.
           rewrite Ev in Hv. injection Hv as <-.
           apply Qle_bool_iff in Hle. congruence.
    + split.
      * intros [H|(l' & Hl' & Hd & Hv)]; eauto 10.
      * intros [H|(l' & [<-|Hl'] & Hd & v' & Hv & Hle)]; eauto 10.
        congruence.
Qed.

Lemma boolean_completed_loop_NoDup (acc : list Z) (l : list LogEntry.t) :
  List.NoDup acc -> List.NoDup (boolean_completed_loop acc l).
Proof.
  revert acc. induction l as [|log rest IH]; intros acc H; simpl; [exact H|].
  apply IH. destruct (LogEntry.value log); [destruct (Qle_bool 1 q)|];
    auto with habits.
Qed.

Lemma numeric_loop_fst_In (goal : option Q) (acc : list Z) (vs : list Q)
    (l : list LogEntry.t) (d : Z) :
  In d (fst (numeric_loop goal acc vs l)) <->
  In d acc \/ exists log, In log l /\ log.(LogEntry.date) = d /\
    exists v, log.(LogEntry.value) = Some v /\
      match goal with Some g => (g <= v)%Q | None => (0 < v)%Q end.
Proof.
  revert acc vs. induction l as [|log rest IH]; intros acc vs; simpl.
  - split; [tauto|]. intros [H|(? & [] & _)]. exact H.
  - destruct (LogEntry.value log) as [v|] eqn:Ev.
    + rewrite IH.
      assert (Hc : forall b, (b = true <-> match goal with
                                 | Some g => (g <= v)%Q | None => (0 < v)%Q end) ->
        (In d (if b then set_add (LogEntry.date log) acc else acc) \/
         (exists log0, In log0 rest /\ LogEntry.date log0 = d /\
            exists v0, LogEntry.value log0 = Some v0 /\
              match goal with Some g => (g <= v0)%Q | None => (0 < v0)%Q end)) <->
        (In d acc \/ (exists log0, (log = log0 \/ In log0 rest) /\ LogEntry.date log0 = d /\
            exists v0, LogEntry.value log0 = Some v0 /\
              match goal with Some g => (g <= v0)%Q | None => (0 < v0)%Q end))).
      { intros b Hb. destruct b.
        - rewrite set_add_In. split.
          + intros [[->|H]|(l' & Hl' & Hd & Hv)]; [|eauto 10|eauto 10].
            right. exists log. split; [left; reflexivity|]. split; [reflexivity|].
            exists v. split; [exact Ev|]. apply Hb. reflexivity.
          + intros [H|(l' & [<-|Hl'] & Hd & Hv)]; eauto 10.
        - split.
          + intros [H|(l' & Hl' & Hd & Hv)]; eauto 10.
          + intros [H|(l' & [<-|Hl'] & Hd & v' & Hv & Hle)]; eauto 10.
            rewrite Ev in Hv. injection Hv as <-. apply Hb in Hle. discriminate. }
      destruct goal as [g|].
      * apply Hc. apply Qle_bool_iff.
      * apply Hc. apply Qgt0_spec.
    + rewrite IH. split.
      * intros [H|(l' & Hl' & Hd & Hv)]; eauto 10.
      * intros [H|(l' & [<-|Hl'] & Hd & v' & Hv & Hle)]; eauto 10.
        congruence.
Qed.

Lemma numeric_loop_NoDup (goal : option Q) (acc : list Z) (vs : list Q)
    (l : list LogEntry.t) :
  List.NoDup acc -> List.NoDup (fst (numeric_loop goal acc vs l)).
Proof.
  revert acc vs. induction l as [|log rest IH]; intros acc vs H; simpl; [exact H|].
  destruct (LogEntry.value log) as [v|]; apply IH; [|exact H].
  destruct goal as [g|]; [destruct (Qle_bool g v)|destruct (Qgt0 v)];
    auto with habits.
Qed.

Lemma numeric_loop_snd (goal : option Q) (acc : list Z) (vs : list Q)
    (l : list LogEntry.t) :
  snd (numeric_loop goal acc vs l) = vs ++ present_values l.
Proof.
  revert acc vs. induction l as [|log rest IH]; intros acc vs; simpl.
  - rewrite app_nil_r. reflexivity.
  - destruct (LogEntry.value log) as [v|]; rewrite IH; simpl.
    + rewrite <- app_assoc. reflexivity.
    + reflexivity.
Qed.

Lemma filter_logs_by_date_In (logs : list LogEntry.t) (start end_ : option Z)
    (log : LogEntry.t) :
  In log (filter_logs_by_date logs start end_) <->
  In log logs /\ in_window start end_ log.(LogEntry.date).
Proof.
  unfold filter_logs_by_date, in_window.
  destruct start as [s|], end_ as [e|]; rewrite ?filter_In, ?Z.leb_le; tauto.
Qed.

Lemma completed_dates_of_In (habit : Habit.t) (l : list LogEntry.t) (d : Z) :
  In d (completed_dates_of habit l) <->
  exists log, In log l /\ log.(LogEntry.date) = d /\
    completes_spec habit log.(LogEntry.value).
Proof.
  unfold completed_dates_of, completes_spec.
  destruct (Habit.type habit).
  - rewrite boolean_completed_loop_In. simpl. split.
    + intros [[]|(log & Hl & Hd & v & Hv & Hle)].
      exists log. rewrite Hv. auto.
    + intros (log & Hl & Hd & Hc). right. exists log. split; [exact Hl|].
      split; [exact Hd|]. destruct (LogEntry.value log) as [v|]; [|contradiction].
      eauto.
  - rewrite numeric_loop_fst_In. simpl. split.
    + intros [[]|(log & Hl & Hd & v & Hv & Hle)].
      exists log. rewrite Hv. auto.
    + intros (log & Hl & Hd & Hc). right. exists log. split; [exact Hl|].
      split; [exact Hd|]. destruct (LogEntry.value log) as [v|]; [|contradiction].
      eauto.
Qed.

Lemma completed_dates_of_NoDup (habit : Habit.t) (l : list LogEntry.t) :
  List.NoDup (completed_dates_of habit l).
Proof.
  unfold completed_dates_of. destruct (Habit.type habit).
  - apply boolean_completed_loop_NoDup. constructor.
  - apply numeric_loop_NoDup. constructor.
Qed.

(** How [calculate] is assembled from the completed dates. *)
Lemma calculate_fields (habit : Habit.t) (logs : list LogEntry.t)
    (start end_ : option Z) (today : Z) :
  let filtered := filter_logs_by_date logs start end_ in
  let cd := completed_dates_of habit filtered in
  let r := calculate habit logs start end_ today in
  (r.(current_streak), r.(longest_streak)) = calculate_streaks cd today /\
  r.(total_completions) = length cd /\
  r.(total_days_tracked) = length filtered /\
  r.(completion_rate) = rate (length cd) (length filtered).
Proof.
  unfold calculate, completed_dates_of, BooleanStatisticsCalculator_calculate,
    NumericStatisticsCalculator_calculate.
  destruct (Habit.type habit).
  - destruct (calculate_streaks _ today). simpl. auto.
  - destruct (numeric_loop _ _ _ _) as [cd vs]. simpl.
    destruct (calculate_streaks cd today). simpl. auto.
Qed.

(** C1. After the window filter, a date is completed iff some filtered
    entry on that date has a non-null value meeting the habit's rule
    (boolean: >= 1.0; numeric with goal: >= goal; numeric without goal:
    > 0); the completed dates form a set (no duplicates) and
    [total_completions] is its size. *)
Theorem completed_dates_rule (habit : Habit.t) (logs : list LogEntry.t)
    (start end_ : option Z) (today : Z) :
  let cd := completed_dates_of habit (filter_logs_by_date logs start end_) in
  (forall d, In d cd <->
     exists log, In log logs /\ in_window start end_ log.(LogEntry.date) /\
       log.(LogEntry.date) = d /\ completes_spec habit log.(LogEntry.value)) /\
  List.NoDup cd /\
  (calculate habit logs start end_ today).(total_completions) = length cd.
Proof.
  split; [|split].
  - intros d. rewrite completed_dates_of_In. split.
    + intros (log & Hl & Hd & Hc). apply filter_logs_by_date_In in Hl.
      exists log. tauto.
    + intros (log & Hl & Hw & Hd & Hc). exists log.
      rewrite filter_logs_by_date_In. tauto.
  - apply completed_dates_of_NoDup.
  - apply calculate_fields.
Qed.

(* ------------------------------------------------------------------ *)
(** ** Completion rate and average value *)

Lemma completed_le_filtered (habit : Habit.t) (l : list LogEntry.t) :
  (length (completed_dates_of habit l) <= length l)%nat.
Proof.
  rewrite <- (length_map LogEntry.date l).
  apply NoDup_incl_length; [apply completed_dates_of_NoDup|].
  intros d Hd. apply completed_dates_of_In in Hd as (log & Hl & <- & _).
  apply in_map. exact Hl.
Qed.

Lemma rate_bounds (tc td : nat) : (tc <= td)%nat -> (0 <= rate tc td <= 1)%Q.
Proof.
  intros Hle. unfold rate, nat_to_Q. destruct (Nat.ltb 0 td) eqn:E.
  - apply Nat.ltb_lt in E.
    assert (Hpos : (0 < inject_Z (Z.of_nat td))%Q).
    { change 0%Q with (inject_Z 0). rewrite <- Zlt_Qlt. lia. }
    split.
    + apply Qle_shift_div_l; [exact Hpos|].
      rewrite Qmult_0_l. change 0%Q with (inject_Z 0). rewrite <- Zle_Qle. lia.
    + apply Qle_shift_div_r; [exact Hpos|].
      rewrite Qmult_1_l. rewrite <- Zle_Qle. lia.
  - split; unfold Qle; simpl; lia.
Qed.

(** C3. The completion rate lies in [0,1]; it is [total_completions /
    total_days_tracked] when [total_days_tracked > 0] and [0] otherwise,
    where [total_completions] is the number of distinct completed dates
    and [total_days_tracked] the number of filtered entries. *)
Theorem completion_rate_spec (habit : Habit.t) (logs : list LogEntry.t)
    (start end_ : option Z) (today : Z) :
  let filtered := filter_logs_by_date logs start end_ in
  let r := calculate habit logs start end_ today in
  (0 <= r.(completion_rate) <= 1)%Q /\
  r.(completion_rate) =
    (if Nat.ltb 0 r.(total_days_tracked)
     then Qdiv (nat_to_Q r.(total_completions)) (nat_to_Q r.(total_days_tracked))
     else 0%Q) /\
  r.(total_completions) = length (completed_dates_of habit filtered) /\
  List.NoDup (completed_dates_of habit filtered) /\
  r.(total_days_tracked) = length filtered.
Proof.
  intros filtered r.
  destruct (calculate_fields habit logs start end_ today) as (_ & Htc & Htd & Hr).
  fold filtered r in Htc, Htd, Hr.
  split; [|split; [|split; [|split]]].
  - rewrite Hr. apply rate_bounds. apply completed_le_filtered.
  - rewrite Hr, Htc, Htd. reflexivity.
  - exact Htc.
  - apply completed_dates_of_NoDup.
  - exact Htd.
Qed.

Lemma fold_left_Qplus (l : list Q) (a : Q) :
  (fold_left Qplus l a == a + fold_right Qplus 0 l)%Q.
Proof.
  revert a. induction l as [|x l IH]; intros a; simpl.
  - rewrite Qplus_0_r. reflexivity.
  - rewrite IH. rewrite Qplus_assoc. reflexivity.
Qed.

(** C5. For a numeric habit, [average_value] is the arithmetic mean of
    all non-null values of the filtered entries (completed or not), and
    null when no filtered entry carries a value; for a boolean habit it
    is always null. *)
Theorem average_value_spec (habit : Habit.t) (logs : list LogEntry.t)
    (start end_ : option Z) (today : Z) :
  let filtered := filter_logs_by_date logs start end_ in
  let r := calculate habit logs start end_ today in
  (habit.(Habit.type) = BOOLEAN -> r.(average_value) = None) /\
  (habit.(Habit.type) = NUMERIC ->
     match present_values filtered with
     | [] => r.(average_value) = None
     | vs => exists a, r.(average_value) = Some a /\ (a == mean vs)%Q
     end).
Proof.
  intros filtered r. unfold r, calculate. split; intros Ht; rewrite Ht.
  - unfold BooleanStatisticsCalculator_calculate.
    destruct (calculate_streaks _ today). reflexivity.
  - unfold NumericStatisticsCalculator_calculate. fold filtered.
    pose proof (numeric_loop_snd habit.(Habit.goal) [] [] filtered) as Hv.
    destruct (numeric_loop _ _ _ _) as [cd vs]. simpl in Hv. subst vs.
    destruct (calculate_streaks cd today). simpl.
    destruct (present_values filtered) as [|v vs]; [reflexivity|].
    eexists. split; [reflexivity|]. unfold sum, mean.
    rewrite fold_left_Qplus, Qplus_0_l. reflexivity.
Qed.

(* ------------------------------------------------------------------ *)
(** ** Streaks *)

Lemma back_list_NoDup (c : Z) (a k : nat) :
  List.NoDup (map (fun j => (c - Z.of_nat j)%Z) (seq a k)).
Proof.
  revert a. induction k as [|k IH]; intros a; simpl; constructor.
  - rewrite in_map_iff. intros (j & Hj & Hin). apply in_seq in Hin. lia.
  - apply IH.
Qed.

(** The [while] loop can run at most [len(completed_dates)] times. *)
Lemma back_run_bound (s : list Z) (c : Z) (k : nat) :
  (forall j, (j < k)%nat -> In (c - Z.of_nat j)%Z s) -> (k <= length s)%nat.
Proof.
  intros H.
  rewrite <- (length_seq k 0), <- (length_map (fun j => (c - Z.of_nat j)%Z)).
  apply NoDup_incl_length; [apply back_list_NoDup|].
  intros x Hx. apply in_map_iff in Hx as (j & <- & Hj). apply in_seq in Hj.
  apply H. lia.
Qed.

Lemma walk_back_count_from (s : list Z) (fuel : nat) (c : Z) :
  (forall k, (forall j, (j < k)%nat -> In (c - Z.of_nat j)%Z s) -> (k < fuel)%nat) ->
  count_from s c (walk_back s fuel c).
Proof.
  revert c. induction fuel as [|f IH]; intros c Hf; simpl.
  - exfalso. specialize (Hf 0%nat). assert (0 < 0)%nat by (apply Hf; lia). lia.
  - destruct (mem c s) eqn:E.
    + apply mem_In in E.
      destruct (IH (c - 1)%Z) as [Hin Hout].
      { intros k Hk. enough (S k < S f)%nat by lia. apply Hf.
        intros [|j] Hj.
        - rewrite Z.sub_0_r. exact E.
        - replace (c - Z.of_nat (S j))%Z with (c - 1 - Z.of_nat j)%Z by lia.
          apply Hk. lia. }
      split.
      * intros [|j] Hj.
        -- rewrite Z.sub_0_r. exact E.
        -- replace (c - Z.of_nat (S j))%Z with (c - 1 - Z.of_nat j)%Z by lia.
           apply Hin. lia.
      * replace (c - Z.of_nat (S (walk_back s f (c - 1))))%Z
          with (c - 1 - Z.of_nat (walk_back s f (c - 1)))%Z by lia.
        exact Hout.
    + apply mem_false in E. split; [intros j Hj; lia|].
      rewrite Z.sub_0_r. exact E.
Qed.

Lemma count_from_unique (s : list Z) (c : Z) (n m : nat) :
  count_from s c n -> count_from s c m -> n = m.
Proof.
  intros [Hn Hn'] [Hm Hm'].
  destruct (Nat.lt_trichotomy n m) as [H|[H|H]]; [|exact H|].
  - exfalso. apply Hn'. apply Hm. exact H.
  - exfalso. apply Hm'. apply Hn. exact H.
Qed.

Lemma count_from_step (s : list Z) (c : Z) (n : nat) :
  In c s -> count_from s (c - 1) n -> count_from s c (S n).
Proof.
  intros Hc [Hin Hout]. split.
  - intros [|j] Hj.
    + rewrite Z.sub_0_r. exact Hc.
    + replace (c - Z.of_nat (S j))%Z with (c - 1 - Z.of_nat j)%Z by lia.
      apply Hin. lia.
  - replace (c - Z.of_nat (S n))%Z with (c - 1 - Z.of_nat n)%Z by lia.
    exact Hout.
Qed.

Lemma back_run_spec (s : list Z) (x : Z) : count_from s x (back_run s x).
Proof.
  apply walk_back_count_from. intros k Hk.
  pose proof (back_run_bound s x k Hk). lia.
Qed.

Lemma back_run_first (s : list Z) (d : Z) :
  In d s -> ~ In (d - 1)%Z s -> back_run s d = 1%nat.
Proof.
  intros Hd Hd'. apply (count_from_unique s d); [apply back_run_spec|].
  split.
  - intros j Hj. replace j with 0%nat by lia. rewrite Z.sub_0_r. exact Hd.
  - exact Hd'.
Qed.

Lemma back_run_next (s : list Z) (d : Z) :
  In d s -> back_run s d = S (back_run s (d - 1)).
Proof.
  intros Hd. apply (count_from_unique s d); [apply back_run_spec|].
  apply count_from_step; [exact Hd|apply back_run_spec].
Qed.

Lemma StronglySorted_le_lt (l : list Z) :
  StronglySorted Z.le l -> List.NoDup l -> StronglySorted Z.lt l.
Proof.
  induction 1 as [|a l Hs IH Hf]; intros Hnd; constructor.
  - apply IH. inversion Hnd; assumption.
  - inversion Hnd as [|? ? Hna Hnd']; subst.
    rewrite List.Forall_forall in Hf |- *. intros x Hx.
    assert (a <> x) by (intros Heq; apply Hna; rewrite Heq; exact Hx). specialize (Hf x Hx). lia.
Qed.

Lemma longest_scan_some (s l : list Z) (p : Z) (cur lng : nat) :
  StronglySorted Z.lt (p :: l) ->
  (forall x, In x s -> In x (p :: l) \/ (x < p)%Z) ->
  (forall x, In x l -> In x s) ->
  cur = back_run s p ->
  longest_scan (Some p) cur lng l = Nat.max lng (max_back_run s l).
Proof.
  revert p cur lng. induction l as [|d l IH]; intros p cur lng Hsort Hbelow Hsub Hcur.
  - simpl. lia.
  - apply StronglySorted_inv in Hsort as [Hsort' Hp].
    inversion Hp as [|? ? Hpd Hpl]; subst.
    pose proof Hsort' as Hsort''.
    apply StronglySorted_inv in Hsort'' as [_ Hdl].
    assert (Hd : In d s) by (apply Hsub; left; reflexivity).
    assert (Hnext : (if Z.eqb (d - p) 1 then S (back_run s p) else 1%nat) = back_run s d).
    { destruct (Z.eqb (d - p) 1) eqn:E.
      - apply Z.eqb_eq in E. rewrite (back_run_next s d Hd).
        replace (d - 1)%Z with p by lia. reflexivity.
      - apply Z.eqb_neq in E. symmetry. apply back_run_first; [exact Hd|].
        intros Hin. destruct (Hbelow _ Hin) as [[Heq|[Heq|Hin']]|Hlt].
        + lia.
        + lia.
        + rewrite List.Forall_forall in Hdl. specialize (Hdl _ Hin'). lia.
        + lia. }
    simpl. rewrite Hnext.
    rewrite (IH d (back_run s d) (Nat.max lng (back_run s d))).
    + simpl. lia.
    + exact Hsort'.
    + intros x Hx. destruct (Hbelow x Hx) as [[<-|Hx']|Hlt]; [right; exact Hpd|left; exact Hx'|].
      right. lia.
    + intros x Hx. apply Hsub. right. exact Hx.
    + reflexivity.
Qed.

Lemma longest_scan_top (s l : list Z) :
  StronglySorted Z.lt l ->
  (forall x, In x s <-> In x l) ->
  longest_scan None 0 0 l = max_back_run s l.
Proof.
  intros Hsort Hsame. destruct l as [|d l]; [reflexivity|].
  assert (Hd : In d s) by (apply Hsame; left; reflexivity).
  pose proof Hsort as Hsort'. apply StronglySorted_inv in Hsort' as [_ Hdl].
  assert (H1 : back_run s d = 1%nat).
  { apply back_run_first; [exact Hd|]. intros Hin. apply Hsame in Hin.
    destruct Hin as [Heq|Hin]; [lia|].
    rewrite List.Forall_forall in Hdl. specialize (Hdl _ Hin). lia. }
  simpl. rewrite (longest_scan_some s l d 1 1).
  - rewrite H1. lia.
  - exact Hsort.
  - intros x Hx. left. apply Hsame. exact Hx.
  - intros x Hx. apply Hsame. right. exact Hx.
  - symmetry. exact H1.
Qed.

Lemma max_back_run_ge (s l : list Z) (x : Z) :
  In x l -> (back_run s x <= max_back_run s l)%nat.
Proof.
  induction l as [|y l IH]; simpl; [contradiction|].
  intros [<-|Hx]; [lia|]. specialize (IH Hx). lia.
Qed.

Lemma max_back_run_attained (s l : list Z) :
  l <> [] -> exists x, In x l /\ max_back_run s l = back_run s x.
Proof.
  induction l as [|y l IH]; intros Hne; [congruence|].
  destruct l as [|z l'].
  - exists y. simpl. split; [left; reflexivity|lia].
  - destruct IH as (x & Hx & Hm); [discriminate|].
    simpl in Hm |- *.
    destruct (Nat.le_ge_cases (back_run s y) (max_back_run s (z :: l'))) as [H|H].
    + exists x. simpl in H. split; [right; exact Hx|]. lia.
    + exists y. simpl in H. split; [left; reflexivity|]. lia.
Qed.

Lemma max_back_run_perm (s l l' : list Z) :
  Permutation l l' -> max_back_run s l = max_back_run s l'.
Proof.
  induction 1; simpl; lia.
Qed.

(** [_calculate_streaks] is the run ending today and the largest run. *)
Lemma calculate_streaks_eq (completed_dates : list Z) (today : Z) :
  List.NoDup completed_dates ->
  calculate_streaks completed_dates today =
  (back_run completed_dates today, max_back_run completed_dates completed_dates).
Proof.
  intros Hnd. destruct completed_dates as [|a rest] eqn:Ecd.
  - reflexivity.
  - rewrite <- Ecd in *. clear a rest Ecd.
    assert (Hperm : Permutation (merge_sort Z.le completed_dates) completed_dates)
      by apply merge_sort_Permutation.
    unfold calculate_streaks. destruct completed_dates as [|a rest] eqn:Ecd; [reflexivity|].
    rewrite <- Ecd in *.
    f_equal.
    + unfold back_run. rewrite (Permutation_length Hperm). reflexivity.
    + rewrite (longest_scan_top completed_dates).
      * apply max_back_run_perm. exact Hperm.
      * apply StronglySorted_le_lt.
        -- apply StronglySorted_merge_sort.
           ++ intros x y z; lia.
           ++ intros x y; lia.
        -- apply (Permutation_NoDup (Permutation_sym Hperm)). exact Hnd.
      * intros x. split; intros Hx.
        -- apply (Permutation_in x (Permutation_sym Hperm)). exact Hx.
        -- apply (Permutation_in x Hperm). exact Hx.
Qed.

Lemma back_run_ge_run (s : list Z) (d : Z) (k : nat) :
  run s d k -> (0 < k)%nat -> (k <= back_run s (d + Z.of_nat (k - 1)))%nat.
Proof.
  intros Hrun Hk. destruct (back_run_spec s (d + Z.of_nat (k - 1))) as [_ Hout].
  destruct (Nat.le_gt_cases k (back_run s (d + Z.of_nat (k - 1)))) as [H|H];
    [exact H|].
  exfalso. apply Hout.
  replace (d + Z.of_nat (k - 1) - Z.of_nat (back_run s (d + Z.of_nat (k - 1))))%Z
    with (d + Z.of_nat (k - 1 - back_run s (d + Z.of_nat (k - 1))))%Z by lia.
  apply Hrun. lia.
Qed.

Lemma longest_bound (s : list Z) (d : Z) (k : nat) :
  run s d k -> (k <= max_back_run s s)%nat.
Proof.
  intros Hrun. destruct k as [|k']; [lia|].
  etransitivity; [apply (back_run_ge_run s d); [exact Hrun|lia]|].
  apply max_back_run_ge. apply Hrun. lia.
Qed.

Lemma longest_attained (s : list Z) : exists d, run s d (max_back_run s s).
Proof.
  destruct s as [|a rest] eqn:Es.
  - exists 0%Z. simpl. intros j Hj. lia.
  - rewrite <- Es. destruct (max_back_run_attained s s) as (x & Hx & Hm);
      [rewrite Es; discriminate|].
    rewrite Hm. exists (x - Z.of_nat (back_run s x) + 1)%Z. intros j Hj.
    destruct (back_run_spec s x) as [Hin _].
    replace (x - Z.of_nat (back_run s x) + 1 + Z.of_nat j)%Z
      with (x - Z.of_nat (back_run s x - 1 - j))%Z by lia.
    apply Hin. lia.
Qed.

(** C2. For a set of completed dates, the current streak is the number
    of consecutive days ending today (walking backward, today included)
    that lie in the set, hence 0 when today is not in it; the longest
    streak is the length of the longest run of consecutive dates in the
    set; both are 0 for the empty set. *)
Theorem streaks_spec (completed_dates : list Z) (today : Z) :
  List.NoDup completed_dates ->
  let '(cur, lng) := calculate_streaks completed_dates today in
  count_from completed_dates today cur /\
  (~ In today completed_dates -> cur = 0%nat) /\
  (exists d, run completed_dates d lng) /\
  (forall d k, run completed_dates d k -> (k <= lng)%nat) /\
  (completed_dates = [] -> cur = 0%nat /\ lng = 0%nat).
Proof.
  intros Hnd. rewrite (calculate_streaks_eq _ _ Hnd).
  split; [|split; [|split; [|split]]].
  - apply back_run_spec.
  - intros Hnot. destruct (back_run_spec completed_dates today) as [Hin _].
    destruct (back_run completed_dates today) as [|n]; [reflexivity|].
    exfalso. apply Hnot. specialize (Hin 0%nat ltac:(lia)).
    rewrite Z.sub_0_r in Hin. exact Hin.
  - apply longest_attained.
  - intros d k. apply longest_bound.
  - intros ->. split; reflexivity.
Qed.

Lemma streaks_spec_witness :
  List.NoDup [5; 3; 4; 1]%Z /\
  (let '(cur, lng) := calculate_streaks [5; 3; 4; 1]%Z 5%Z in
   count_from [5; 3; 4; 1]%Z 5%Z cur /\
   (~ In 5%Z [5; 3; 4; 1]%Z -> cur = 0%nat) /\
   (exists d, run [5; 3; 4; 1]%Z d lng) /\
   (forall d k, run [5; 3; 4; 1]%Z d k -> (k <= lng)%nat) /\
   ([5; 3; 4; 1]%Z = [] -> cur = 0%nat /\ lng = 0%nat)).
Proof.
  assert (H : List.NoDup [5; 3; 4; 1]%Z).
  { repeat constructor; simpl; intuition lia. }
  split; [exact H|]. apply (streaks_spec [5; 3; 4; 1]%Z 5%Z H).
Defined.

Lemma current_le_longest (habit : Habit.t) (logs : list LogEntry.t)
    (start end_ : option Z) (today : Z) :
  let r := calculate habit logs start end_ today in
  (r.(current_streak) <= r.(longest_streak))%nat /\
  (forall e, end_ = Some e -> (e < today)%Z -> r.(current_streak) = 0%nat).
Proof.
  intros r.
  destruct (calculate_fields habit logs start end_ today) as (Hs & _).
  fold r in Hs.
  set (cd := completed_dates_of habit (filter_logs_by_date logs start end_)) in Hs.
  rewrite (calculate_streaks_eq cd today (completed_dates_of_NoDup _ _)) in Hs.
  injection Hs as Hcur Hlng.
  destruct (back_run_spec cd today) as [Hin _].
  rewrite <- Hcur in Hin.
  split.
  - rewrite Hlng. apply (longest_bound cd (today - Z.of_nat (current_streak r) + 1)%Z).
    intros j Hj.
    replace (today - Z.of_nat (current_streak r) + 1 + Z.of_nat j)%Z
      with (today - Z.of_nat (current_streak r - 1 - j))%Z by lia.
    apply Hin. lia.
  - intros e -> He. destruct (current_streak r) as [|n]; [reflexivity|]. exfalso.
    specialize (Hin 0%nat ltac:(lia)). rewrite Z.sub_0_r in Hin.
    unfold cd in Hin. rewrite completed_dates_of_In in Hin.
    destruct Hin as (log & Hl & Hd & _). apply filter_logs_by_date_In in Hl as (_ & _ & Hw).
    simpl in Hw. lia.
Qed.

(** C4 (amended). [longest_streak >= current_streak] holds for every
    input; when the window ends before today, the current streak is 0.
    Example: a 5-day streak ending before a window that stops before
    today gives [current_streak = 0] and [longest_streak = 5]. *)
Theorem longest_ge_current (habit : Habit.t) (logs : list LogEntry.t)
    (start end_ : option Z) (today : Z) :
  let r := calculate habit logs start end_ today in
  (r.(current_streak) <= r.(longest_streak))%nat /\
  (forall e, end_ = Some e -> (e < today)%Z -> r.(current_streak) = 0%nat) /\
  (let h := Habit.mk "h" "Exercise" None None BOOLEAN None 0 None [] in
   let r5 := calculate h (map (fun d => log_at d (Some 1%Q)) [90; 91; 92; 93; 94]%Z)
               None (Some 95%Z) 100%Z in
   (r5.(current_streak), r5.(longest_streak)) = (0%nat, 5%nat)).
Proof.
  destruct (current_le_longest habit logs start end_ today) as [H1 H2].
  split; [exact H1|split; [exact H2|]].
  vm_compute. reflexivity.
Qed.

(** C4: there is no input, with or without a window excluding today,
    whose result has [longest_streak < current_streak]. *)
Lemma longest_lt_current_impossible :
  ~ (exists habit logs start e today,
       (e < today)%Z /\
       (calculate habit logs start (Some e) today).(longest_streak) <
       (calculate habit logs start (Some e) today).(current_streak))%nat.
Proof.
  intros (habit & logs & start & e & today & _ & Hlt).
  destruct (current_le_longest habit logs start (Some e) today) as [H _].
  lia.
Qed.

(* ------------------------------------------------------------------ *)
(** ** Cascading delete *)

Lemma shrinks_refl (st : State) : shrinks st st.
Proof. split; auto. Qed.

Lemma shrinks_trans (st1 st2 st3 : State) :
  shrinks st1 st2 -> shrinks st2 st3 -> shrinks st1 st3.
Proof.
  intros [H1 L1] [H2 L2]. split; [auto|congruence].
Qed.

Lemma shrinks_delete (st : State) (hid : string) :
  shrinks st (habit_repo_delete hid st).
Proof.
  split; [|reflexivity]. intros k h. simpl.
  rewrite lookup_delete. case_decide; [discriminate|auto].
Qed.

#[local] Hint Resolve shrinks_refl shrinks_trans shrinks_delete : habits.

Section DeleteEach.
Variable del : string -> State -> option (State * result unit).

Lemma delete_each_shrinks (ids : list string) (st st' : State) (r : result unit) :
  (forall i st st' r, del i st = Some (st', r) -> shrinks st st') ->
  delete_each del ids st = Some (st', r) -> shrinks st st'.
Proof.
  intros Hdel. revert st. induction ids as [|i rest IH]; intros st H; simpl in H.
  - injection H as <- _. apply shrinks_refl.
  - destruct (del i st) as [[st1 [[]|e]]|] eqn:E; try discriminate.
    + apply (shrinks_trans _ st1); [exact (Hdel _ _ _ _ E)|exact (IH _ H)].
    + injection H as <- _. exact (Hdel _ _ _ _ E).
Qed.

Lemma delete_each_err (ids : list string) (st st' : State) (e : error) :
  (forall i st st' e, del i st = Some (st', Err e) -> e = NotFound) ->
  delete_each del ids st = Some (st', Err e) -> e = NotFound.
Proof.
  intros Hdel. revert st. induction ids as [|i rest IH]; intros st H; simpl in H.
  - discriminate.
  - destruct (del i st) as [[st1 [[]|e']]|] eqn:E; try discriminate.
    + exact (IH _ H).
    + injection H as <- ->. exact (Hdel _ _ _ _ E).
Qed.

Lemma delete_each_app (pre post : list string) (st : State) :
  delete_each del (pre ++ post) st =
  match delete_each del pre st with
  | Some (st', Ok _) => delete_each del post st'
  | other => other
  end.
Proof.
  revert st. induction pre as [|i rest IH]; intros st; simpl; [reflexivity|].
  destruct (del i st) as [[st1 [[]|e]]|]; [apply IH|reflexivity|reflexivity].
Qed.
End DeleteEach.

Lemma delete_each_mono (del1 del2 : string -> State -> option (State * result unit))
    (ids : list string) (st : State) (res : State * result unit) :
  (forall i st res, del1 i st = Some res -> del2 i st = Some res) ->
  delete_each del1 ids st = Some res -> delete_each del2 ids st = Some res.
Proof.
  intros Hdel. revert st. induction ids as [|i rest IH]; intros st H; simpl in *.
  - exact H.
  - destruct (del1 i st) as [[st1 r1]|] eqn:E; [|discriminate].
    rewrite (Hdel _ _ _ E). destruct r1; [apply IH|]; exact H.
Qed.

Lemma delete_habit_shrinks (fuel : nat) (hid : string) (st st' : State)
    (r : result unit) :
  delete_habit fuel hid st = Some (st', r) -> shrinks st st'.
Proof.
  revert hid st st' r. induction fuel as [|f IH]; intros hid st st' r H; simpl in H.
  - discriminate.
  - destruct (habit_repo_get hid st) as [h|].
    + destruct (delete_each (delete_habit f) (Habit.subhabit_ids h) st)
        as [[st1 [[]|e]]|] eqn:E; try discriminate.
      * injection H as <- _. apply (shrinks_trans _ st1); [|apply shrinks_delete].
        exact (delete_each_shrinks _ _ _ _ _ IH E).
      * injection H as <- _. exact (delete_each_shrinks _ _ _ _ _ IH E).
    + injection H as <- _. apply shrinks_refl.
Qed.

Lemma delete_habit_err (fuel : nat) (hid : string) (st st' : State) (e : error) :
  delete_habit fuel hid st = Some (st', Err e) -> e = NotFound.
Proof.
  revert hid st st' e. induction fuel as [|f IH]; intros hid st st' e H; simpl in H.
  - discriminate.
  - destruct (habit_repo_get hid st) as [h|].
    + destruct (delete_each (delete_habit f) (Habit.subhabit_ids h) st)
        as [[st1 [[]|e']]|] eqn:E; try discriminate.
      injection H as <- ->. exact (delete_each_err _ _ _ _ _ IH E).
    + injection H as <- <-. reflexivity.
Qed.

(** More recursion depth never changes a finished run. *)
Lemma delete_habit_mono (n m : nat) (hid : string) (st : State)
    (res : State * result unit) :
  (n <= m)%nat -> delete_habit n hid st = Some res -> delete_habit m hid st = Some res.
Proof.
  revert m hid st res. induction n as [|n IH]; intros m hid st res Hle H;
    simpl in H; [discriminate|].
  destruct m as [|m]; [lia|]. simpl.
  destruct (habit_repo_get hid st) as [h|]; [|exact H].
  destruct (delete_each (delete_habit n) (Habit.subhabit_ids h) st) as [res1|] eqn:E;
    [|discriminate].
  rewrite (delete_each_mono (delete_habit n) (delete_habit m) _ _ res1);
    [exact H| |exact E].
  intros i st1 res2. apply IH. lia.
Qed.

Lemma delete_habit_ok_absent (fuel : nat) (hid : string) (st st' : State) :
  delete_habit fuel hid st = Some (st', Ok tt) -> st'.(habits) !! hid = None.
Proof.
  destruct fuel as [|f]; simpl; [discriminate|].
  destruct (habit_repo_get hid st) as [h|]; [|discriminate].
  destruct (delete_each (delete_habit f) (Habit.subhabit_ids h) st)
    as [[st1 [[]|e]]|]; try discriminate.
  intros H. injection H as <-. simpl. apply lookup_delete_eq.
Qed.

Lemma delete_each_ok_absent (f : nat) (ids : list string) (st st' : State) :
  delete_each (delete_habit f) ids st = Some (st', Ok tt) ->
  forall c, In c ids -> st'.(habits) !! c = None.
Proof.
  revert st. induction ids as [|i rest IH]; intros st H c Hc; simpl in *.
  - contradiction.
  - destruct (delete_habit f i st) as [[st1 [[]|e]]|] eqn:E; try discriminate.
    destruct Hc as [<-|Hc]; [|exact (IH _ H c Hc)].
    apply delete_habit_ok_absent in E.
    destruct (delete_each_shrinks _ _ _ _ _ (delete_habit_shrinks f) H) as [Hs _].
    destruct (habits st' !! i) as [h|] eqn:E'; [|reflexivity].
    apply Hs in E'. congruence.
Qed.

(** C6. Deleting a habit first deletes, one after the other, every id of
    its [subhabit_ids] (each recursively) and only then removes the
    habit itself; so deleting a habit whose single sub-habit is a leaf
    first removes the child, then the parent, and afterwards getting
    either id returns [None]. *)
Theorem delete_habit_cascade (st : State) (p c : string) (parent child : Habit.t)
    (fuel : nat) :
  st.(habits) !! p = Some parent -> parent.(Habit.subhabit_ids) = [c] ->
  st.(habits) !! c = Some child -> child.(Habit.subhabit_ids) = [] ->
  (2 <= fuel)%nat ->
  (forall f hid h st0 st'',
     st0.(habits) !! hid = Some h -> delete_habit (S f) hid st0 = Some (st'', Ok tt) ->
     exists st1,
       delete_each (delete_habit f) h.(Habit.subhabit_ids) st0 = Some (st1, Ok tt) /\
       st'' = habit_repo_delete hid st1 /\
       (forall c', In c' h.(Habit.subhabit_ids) -> st1.(habits) !! c' = None)) /\
  delete_habit fuel p st = Some (habit_repo_delete p (habit_repo_delete c st), Ok tt) /\
  get_habit p (habit_repo_delete p (habit_repo_delete c st)) = None /\
  get_habit c (habit_repo_delete p (habit_repo_delete c st)) = None.
Proof.
  intros Hp Hps Hc Hcs Hfuel. split; [|split; [|split]].
  - intros f hid h st0 st'' Hh Hdel. simpl in Hdel. unfold habit_repo_get in Hdel.
    rewrite Hh in Hdel.
    destruct (delete_each (delete_habit f) (Habit.subhabit_ids h) st0)
      as [[st1 [[]|e]]|] eqn:E; try discriminate.
    injection Hdel as <-. exists st1. split; [reflexivity|]. split; [reflexivity|].
    exact (delete_each_ok_absent f _ _ _ E).
  - apply (delete_habit_mono 2); [exact Hfuel|]. simpl.
    unfold habit_repo_get. rewrite Hp, Hps. simpl. rewrite Hc, Hcs. reflexivity.
  - unfold get_habit, habit_repo_get. simpl. apply lookup_delete_eq.
  - unfold get_habit, habit_repo_get. simpl.
    rewrite lookup_delete. case_decide; [reflexivity|]. apply lookup_delete_eq.
Qed.

Lemma delete_habit_cascade_witness :
  let child := Habit.mk "c" "Meditate" None None BOOLEAN None 0 (Some "p") [] in
  let parent := Habit.mk "p" "Morning" None None BOOLEAN None 0 None ["c"] in
  let st := mkState (<["c" := child]> (<["p" := parent]> ∅)) [] in
  st.(habits) !! "p" = Some parent /\ st.(habits) !! "c" = Some child /\
  (forall f hid h st0 st'',
     st0.(habits) !! hid = Some h -> delete_habit (S f) hid st0 = Some (st'', Ok tt) ->
     exists st1,
       delete_each (delete_habit f) h.(Habit.subhabit_ids) st0 = Some (st1, Ok tt) /\
       st'' = habit_repo_delete hid st1 /\
       (forall c', In c' h.(Habit.subhabit_ids) -> st1.(habits) !! c' = None)) /\
  delete_habit 2 "p" st =
    Some (habit_repo_delete "p" (habit_repo_delete "c" st), Ok tt) /\
  get_habit "p" (habit_repo_delete "p" (habit_repo_delete "c" st)) = None /\
  get_habit "c" (habit_repo_delete "p" (habit_repo_delete "c" st)) = None.
Proof.
  intros child parent st.
  assert (Hp : st.(habits) !! "p" = Some parent) by reflexivity.
  assert (Hc : st.(habits) !! "c" = Some child) by reflexivity.
  split; [exact Hp|split; [exact Hc|]].
  exact (delete_habit_cascade st "p" "c" parent child 2 Hp eq_refl Hc eq_refl
           ltac:(lia)).
Defined.

(* ------------------------------------------------------------------ *)
(** ** Not-found errors and update *)

(** C8. When the addressed id is absent from the habit store, update,
    delete, add-subhabit (on the parent id), record-log, get-logs and
    get-statistics raise not-found and leave both stores unchanged, while
    get returns [None]. *)
Theorem missing_habit_not_found (st : State) (hid : string) (u : HabitUpdate)
    (sub : Habit.t) (log_id : string) (now today date_ : Z) (value : option Q)
    (start end_ : option Z) (fuel : nat) :
  st.(habits) !! hid = None ->
  get_habit hid st = None /\
  update_habit hid u st = (st, Err NotFound) /\
  delete_habit (S fuel) hid st = Some (st, Err NotFound) /\
  add_subhabit hid sub st = (st, Err NotFound) /\
  record_log log_id now hid date_ value st = (st, Err NotFound) /\
  get_logs hid start end_ st = (st, Err NotFound) /\
  get_statistics today hid start end_ st = (st, Err NotFound).
Proof.
  intros H.
  unfold get_habit, update_habit, add_subhabit, record_log, get_logs,
    get_statistics, habit_repo_get. simpl. unfold habit_repo_get.
  rewrite H. repeat split.
Qed.

Lemma missing_habit_not_found_witness :
  empty_state.(habits) !! "x" = None /\
  get_habit "x" empty_state = None /\
  update_habit "x" (mkHabitUpdate (Some "n") None None None) empty_state =
    (empty_state, Err NotFound) /\
  delete_habit 1 "x" empty_state = Some (empty_state, Err NotFound) /\
  add_subhabit "x" (Habit.mk "s" "S" None None BOOLEAN None 0 None []) empty_state =
    (empty_state, Err NotFound) /\
  record_log "l" 0 "x" 7 None empty_state = (empty_state, Err NotFound) /\
  get_logs "x" None None empty_state = (empty_state, Err NotFound) /\
  get_statistics 7 "x" None None empty_state = (empty_state, Err NotFound).
Proof.
  split; [reflexivity|].
  exact (missing_habit_not_found empty_state "x" (mkHabitUpdate (Some "n") None None None)
           (Habit.mk "s" "S" None None BOOLEAN None 0 None []) "l" 0 7 7 None None None 0
           eq_refl).
Defined.

(** C9. Updating a stored habit sets exactly the supplied fields among
    name, description, category and goal, keeps the omitted ones, and
    leaves id, type, created_at, parent_id and subhabit_ids unchanged;
    the store holds the updated habit under its id and nothing else
    changes. *)
Theorem update_habit_frame (st : State) (hid : string) (h : Habit.t)
    (u : HabitUpdate) :
  st.(habits) !! hid = Some h -> h.(Habit.id) = hid ->
  exists h',
    update_habit hid u st = (mkState (<[hid := h']> st.(habits)) st.(logs), Ok h') /\
    h'.(Habit.name) = match u.(upd_name) with Some x => x | None => h.(Habit.name) end /\
    h'.(Habit.description) =
      match u.(upd_description) with Some x => Some x | None => h.(Habit.description) end /\
    h'.(Habit.category) =
      match u.(upd_category) with Some x => Some x | None => h.(Habit.category) end /\
    h'.(Habit.goal) = match u.(upd_goal) with Some x => Some x | None => h.(Habit.goal) end /\
    h'.(Habit.id) = h.(Habit.id) /\ h'.(Habit.type) = h.(Habit.type) /\
    h'.(Habit.created_at) = h.(Habit.created_at) /\
    h'.(Habit.parent_id) = h.(Habit.parent_id) /\
    h'.(Habit.subhabit_ids) = h.(Habit.subhabit_ids).
Proof.
  intros Hh Hid. exists (apply_update h u).
  unfold update_habit, habit_repo_get, habit_repo_update. rewrite Hh.
  simpl. rewrite Hid, Hh. split; [reflexivity|].
  destruct u as [[n|] [d|] [c|] [g|]]; simpl; repeat split.
Qed.

Lemma update_habit_frame_witness :
  let h := Habit.mk "h" "Read" (Some "pages") None NUMERIC (Some 10%Q) 3 None [] in
  let st := mkState (<["h" := h]> ∅) [] in
  let u := mkHabitUpdate (Some "Read more") None (Some "Study") None in
  st.(habits) !! "h" = Some h /\ h.(Habit.id) = "h" /\
  exists h',
    update_habit "h" u st = (mkState (<["h" := h']> st.(habits)) st.(logs), Ok h') /\
    h'.(Habit.name) = match u.(upd_name) with Some x => x | None => h.(Habit.name) end /\
    h'.(Habit.description) =
      match u.(upd_description) with Some x => Some x | None => h.(Habit.description) end /\
    h'.(Habit.category) =
      match u.(upd_category) with Some x => Some x | None => h.(Habit.category) end /\
    h'.(Habit.goal) = match u.(upd_goal) with Some x => Some x | None => h.(Habit.goal) end /\
    h'.(Habit.id) = h.(Habit.id) /\ h'.(Habit.type) = h.(Habit.type) /\
    h'.(Habit.created_at) = h.(Habit.created_at) /\
    h'.(Habit.parent_id) = h.(Habit.parent_id) /\
    h'.(Habit.subhabit_ids) = h.(Habit.subhabit_ids).
Proof.
  intros h st u. split; [reflexivity|split; [reflexivity|]].
  exact (update_habit_frame st "h" h u eq_refl eq_refl).
Defined.

(* ------------------------------------------------------------------ *)
(** ** Parent / sub-habit linkage *)

Lemma backlink_shrinks (st st' : State) :
  backlink_invariant st -> shrinks st st' -> backlink_invariant st'.
Proof.
  intros [Hid Hlink] [Hs _]. split.
  - intros k h Hk. exact (Hid k h (Hs _ _ Hk)).
  - intros k h c ch Hk Hc Hch. exact (Hlink k h c ch (Hs _ _ Hk) Hc (Hs _ _ Hch)).
Qed.

Lemma backlink_empty : backlink_invariant empty_state.
Proof.
  split; intros k h; simpl; rewrite lookup_empty; discriminate.
Qed.

Lemma backlink_create (st : State) (new_id : string) (now : Z) (payload : HabitCreate) :
  backlink_invariant st -> fresh_id st new_id ->
  backlink_invariant (fst (api_create_habit new_id now payload st)).
Proof.
  intros [Hid Hlink] [Hfresh Hnot].
  unfold backlink_invariant, api_create_habit, create_habit, habit_repo_add. simpl. split.
  - intros k h. rewrite lookup_insert. case_decide as Hk.
    + intros Heq. injection Heq as <-. simpl. exact Hk.
    + apply Hid.
  - intros k h c ch. rewrite lookup_insert. case_decide as Hk.
    + intros Heq. injection Heq as <-. simpl. contradiction.
    + intros Hh Hc. rewrite lookup_insert. case_decide as Hcx.
      * subst c. exfalso. exact (Hnot k h Hh Hc).
      * exact (Hlink k h c ch Hh Hc).
Qed.

Lemma backlink_record_log (st : State) (log_id : string) (now : Z) (hid : string)
    (date_ : Z) (value : option Q) :
  backlink_invariant st ->
  backlink_invariant (fst (record_log log_id now hid date_ value st)).
Proof.
  unfold record_log. destruct (habit_repo_get hid st); simpl; auto.
Qed.

Lemma backlink_update (st : State) (hid : string) (u : HabitUpdate) :
  backlink_invariant st -> backlink_invariant (fst (update_habit hid u st)).
Proof.
  intros [Hid Hlink]. unfold backlink_invariant, update_habit, habit_repo_get.
  destruct (habits st !! hid) as [h|] eqn:Eh; [|split; assumption].
  unfold habit_repo_update. simpl. pose proof (Hid _ _ Eh) as Hhid. rewrite Hhid, Eh.
  simpl. split.
  - intros k h0. rewrite lookup_insert. case_decide as Hk.
    + intros Heq. injection Heq as <-. simpl. rewrite Hhid. exact Hk.
    + apply Hid.
  - intros k h0 c ch. rewrite lookup_insert. case_decide as Hk.
    + subst k. intros Heq. injection Heq as <-. simpl. intros Hc.
      rewrite lookup_insert. case_decide as Hcx.
      * subst c. intros Heq. injection Heq as <-. simpl.
        exact (Hlink hid h hid h Eh Hc Eh).
      * exact (Hlink hid h c ch Eh Hc).
    + intros Hh0 Hc. rewrite lookup_insert. case_decide as Hcx.
      * subst c. intros Heq. injection Heq as <-. simpl.
        exact (Hlink k h0 hid h Hh0 Hc Eh).
      * exact (Hlink k h0 c ch Hh0 Hc).
Qed.

Lemma backlink_add_subhabit (st : State) (new_id : string) (now : Z) (p : string)
    (payload : HabitCreate) :
  backlink_invariant st -> fresh_id st new_id ->
  backlink_invariant (fst (api_add_subhabit new_id now p payload st)).
Proof.
  intros [Hid Hlink] [Hfresh Hnot].
  unfold backlink_invariant, api_add_subhabit, add_subhabit, habit_repo_get.
  destruct (habits st !! p) as [P|] eqn:EP; [|split; assumption].
  assert (Hpx : p <> new_id) by (intros ->; congruence).
  pose proof (Hid _ _ EP) as HPid.
  unfold habit_repo_update, habit_repo_add. simpl. rewrite HPid.
  rewrite lookup_insert_ne by congruence. rewrite EP. simpl. split.
  - intros k h. rewrite lookup_insert. case_decide as Hk.
    + intros Heq. injection Heq as <-. simpl. rewrite HPid. exact Hk.
    + rewrite lookup_insert. case_decide as Hk'.
      * intros Heq. injection Heq as <-. simpl. exact Hk'.
      * apply Hid.
  - intros k h c ch. rewrite lookup_insert. case_decide as Hk.
    + subst k. intros Heq. injection Heq as <-. simpl. intros Hc.
      apply in_app_or in Hc.
      rewrite lookup_insert. case_decide as Hcp.
      * subst c. intros Heq. injection Heq as <-. simpl.
        destruct Hc as [Hc|[Hc|[]]]; [exact (Hlink p P p P EP Hc EP)|congruence].
      * rewrite lookup_insert. case_decide as Hcx.
        -- intros Heq. injection Heq as <-. reflexivity.
        -- destruct Hc as [Hc|[Hc|[]]]; [exact (Hlink p P c ch EP Hc)|congruence].
    + rewrite lookup_insert. case_decide as Hkx.
      * intros Heq. injection Heq as <-. simpl. contradiction.
      * intros Hh Hc. assert (Hcx : c <> new_id) by (intros ->; exact (Hnot k h Hh Hc)).
        rewrite lookup_insert. case_decide as Hcp.
        -- subst c. intros Heq. injection Heq as <-. simpl.
           exact (Hlink k h p P Hh Hc EP).
        -- rewrite lookup_insert_ne by congruence. exact (Hlink k h c ch Hh Hc).
Qed.

Lemma backlink_step (st st' : State) :
  backlink_invariant st -> api_step st st' -> backlink_invariant st'.
Proof.
  intros Hinv Hstep. destruct Hstep as
    [new_id now payload st Hf|new_id now p payload st Hf|hid u st
    |fuel hid st st' r Hdel|log_id now hid date_ value st].
  - exact (backlink_create st new_id now payload Hinv Hf).
  - exact (backlink_add_subhabit st new_id now p payload Hinv Hf).
  - exact (backlink_update st hid u Hinv).
  - exact (backlink_shrinks st st' Hinv (delete_habit_shrinks _ _ _ _ _ Hdel)).
  - exact (backlink_record_log st log_id now hid date_ value Hinv).
Qed.

(** C7 (amended). In every state reachable through the endpoints
    (create, add-subhabit, update, delete, record-log) with fresh uuid
    ids, every habit is stored under its own id, and every id of a
    habit's [subhabit_ids] that is still in the store names a habit whose
    [parent_id] is that habit's id. *)
Theorem reachable_backlink_invariant (st : State) :
  reachable st -> backlink_invariant st.
Proof.
  induction 1 as [|st st' Hreach IH Hstep].
  - apply backlink_empty.
  - exact (backlink_step st st' IH Hstep).
Qed.

Lemma fresh_in_empty (x : string) : fresh_id empty_state x.
Proof.
  split; [reflexivity|]. intros k h. simpl. rewrite lookup_empty. discriminate.
Qed.

Lemma create_then_sub_reachable :
  reachable
    (fst (api_add_subhabit "b" 1 "a" (mkHabitCreate "Meditate" None None BOOLEAN None None)
      (fst (api_create_habit "a" 0 (mkHabitCreate "Morning" None None BOOLEAN None None)
         empty_state)))).
Proof.
  eapply reach_step; [eapply reach_step; [apply reach_init|]|].
  - apply step_create. apply fresh_in_empty.
  - apply step_add_subhabit. split; [reflexivity|].
    intros k h. simpl. rewrite lookup_insert. case_decide.
    + intros Heq. injection Heq as <-. simpl. tauto.
    + rewrite lookup_empty. discriminate.
Qed.

Lemma reachable_backlink_invariant_witness :
  let st := fst (api_add_subhabit "b" 1 "a"
               (mkHabitCreate "Meditate" None None BOOLEAN None None)
               (fst (api_create_habit "a" 0
                  (mkHabitCreate "Morning" None None BOOLEAN None None) empty_state))) in
  reachable st /\ backlink_invariant st.
Proof.
  split; [exact create_then_sub_reachable|].
  apply reachable_backlink_invariant. exact create_then_sub_reachable.
Defined.

(** C7: a habit created through the endpoint with a [parent_id] naming no
    stored habit is reachable and breaks the spec's linkage invariant. *)
Lemma linkage_invariant_violated :
  let st := fst (api_create_habit "a" 0
                   (mkHabitCreate "Run" None None BOOLEAN None (Some "ghost"))
                   empty_state) in
  reachable st /\ ~ linkage_invariant st.
Proof.
  split.
  - eapply reach_step; [apply reach_init|]. apply step_create. apply fresh_in_empty.
  - intros [Hpar _].
    destruct (Hpar "a" (Habit.mk "a" "Run" None None BOOLEAN None 0 (Some "ghost") [])
                "ghost" eq_refl eq_refl) as [x Hx].
    discriminate.
Qed.

(* ------------------------------------------------------------------ *)
(** ** Delete with a dangling sub-habit id *)

Lemma delete_habit_absent_not_ok (f : nat) (d : string) (st st' : State) :
  st.(habits) !! d = None -> delete_habit f d st <> Some (st', Ok tt).
Proof.
  intros Hd. destruct f as [|f]; simpl; [discriminate|].
  unfold habit_repo_get. rewrite Hd. discriminate.
Qed.

Lemma delete_each_dangling_not_ok (f : nat) (ids : list string) (d : string)
    (st st' : State) :
  In d ids -> st.(habits) !! d = None ->
  delete_each (delete_habit f) ids st <> Some (st', Ok tt).
Proof.
  revert st. induction ids as [|i rest IH]; intros st Hin Hd; simpl; [contradiction|].
  destruct (delete_habit f i st) as [[st1 [[]|e]]|] eqn:E; try discriminate.
  destruct Hin as [<-|Hin].
  - exfalso. exact (delete_habit_absent_not_ok f i st st1 Hd E).
  - apply IH; [exact Hin|].
    destruct (habits st1 !! d) as [x|] eqn:Ex; [|reflexivity].
    apply (delete_habit_shrinks _ _ _ _ _ E) in Ex. congruence.
Qed.

Section Dangling.
Variables (h d : string) (H : Habit.t).
Hypothesis H_dangling : In d H.(Habit.subhabit_ids).

Lemma keeps_habit_shrinks (st st' : State) :
  keeps_habit h d H st -> shrinks st st' -> st'.(habits) !! h = Some H -> keeps_habit h d H st'.
Proof.
  intros [_ Hd] [Hs _] Hh. split; [exact Hh|].
  destruct (habits st' !! d) as [x|] eqn:Ex; [|reflexivity].
  apply Hs in Ex. congruence.
Qed.

(** No run of [delete_habit], on any id, removes [h] while [h] lists
    the absent id [d]. *)
Lemma delete_habit_keeps_h (f : nat) :
  forall y st st' r, keeps_habit h d H st -> delete_habit f y st = Some (st', r) ->
  st'.(habits) !! h = Some H.
Proof.
  induction f as [|f IH]; intros y st st' r Hk Hdel; simpl in Hdel; [discriminate|].
  assert (Heach : forall ids st0 st1 r1, keeps_habit h d H st0 ->
            delete_each (delete_habit f) ids st0 = Some (st1, r1) ->
            st1.(habits) !! h = Some H).
  { induction ids as [|i rest IHl]; intros st0 st1 r1 Hk0 E; simpl in E.
    - injection E as <- _. apply Hk0.
    - destruct (delete_habit f i st0) as [[st2 [[]|e]]|] eqn:E2; try discriminate.
      + apply (IHl st2 st1 r1); [|exact E].
        apply (keeps_habit_shrinks st0); [exact Hk0|exact (delete_habit_shrinks _ _ _ _ _ E2)|].
        exact (IH _ _ _ _ Hk0 E2).
      + injection E as <- _. exact (IH _ _ _ _ Hk0 E2). }
  unfold habit_repo_get in Hdel.
  destruct (habits st !! y) as [Y|] eqn:EY.
  - destruct (delete_each (delete_habit f) (Habit.subhabit_ids Y) st)
      as [[st1 [[]|e]]|] eqn:E; try discriminate.
    + injection Hdel as <- _.
      assert (Hyh : y <> h).
      { intros ->. destruct Hk as [Hh Hd]. rewrite Hh in EY. injection EY as <-.
        exact (delete_each_dangling_not_ok f _ d st st1 H_dangling Hd E). }
      simpl. rewrite lookup_delete_ne by congruence. exact (Heach _ _ _ _ Hk E).
    + injection Hdel as <- _. exact (Heach _ _ _ _ Hk E).
  - injection Hdel as <- _. apply Hk.
Qed.
End Dangling.

(** C10 (amended). If habit [h] lists an id [d] that is absent from the
    store, a finished [delete_habit h] (one that does not recurse
    forever) raises not-found, [h] itself is still stored, and the habit
    store has only lost entries, none restored; in particular when the
    recursive deletions of the ids [pre] listed before [d] succeed, the
    store is left exactly as they left it, with those sub-habits gone. *)
Theorem delete_dangling_not_atomic (st : State) (h d : string) (H : Habit.t)
    (pre post : list string) (f : nat) (st' : State) (r : result unit) :
  st.(habits) !! h = Some H -> H.(Habit.subhabit_ids) = pre ++ d :: post ->
  st.(habits) !! d = None ->
  delete_habit (S f) h st = Some (st', r) ->
  r = Err NotFound /\ st'.(habits) !! h = Some H /\ shrinks st st' /\
  (forall st1, delete_each (delete_habit f) pre st = Some (st1, Ok tt) ->
     st' = st1 /\ forall c, In c pre -> st'.(habits) !! c = None).
Proof.
  intros Hh Hsubs Hd Hdel.
  assert (Hin : In d H.(Habit.subhabit_ids)).
  { rewrite Hsubs. apply in_or_app. right. left. reflexivity. }
  pose proof Hdel as Hdel'. simpl in Hdel'. unfold habit_repo_get in Hdel'.
  rewrite Hh in Hdel'.
  destruct (delete_each (delete_habit f) (Habit.subhabit_ids H) st)
    as [[st1 [[]|e]]|] eqn:E; try discriminate.
  - exfalso. exact (delete_each_dangling_not_ok f _ d st st1 Hin Hd E).
  - injection Hdel' as <- <-.
    split; [f_equal; exact (delete_each_err _ _ _ _ _ (delete_habit_err f) E)|].
    split; [exact (delete_habit_keeps_h h d H Hin (S f) h st st1 (Err e) (conj Hh Hd) Hdel)|].
    split; [exact (delete_habit_shrinks _ _ _ _ _ Hdel)|].
    intros st2 Hpre. rewrite Hsubs, delete_each_app, Hpre in E. simpl in E.
    assert (Hd2 : habits st2 !! d = None).
    { destruct (habits st2 !! d) as [x|] eqn:Ex; [|reflexivity].
      apply (delete_each_shrinks _ _ _ _ _ (delete_habit_shrinks f) Hpre) in Ex.
      congruence. }
    destruct f as [|f']; simpl in E; [discriminate|].
    unfold habit_repo_get in E. rewrite Hd2 in E. injection E as <- _.
    split; [reflexivity|]. exact (delete_each_ok_absent _ _ _ _ Hpre).
Qed.

Lemma delete_dangling_not_atomic_witness :
  let hh := Habit.mk "h" "Parent" None None BOOLEAN None 0 None ["c"; "d"] in
  let hc := Habit.mk "c" "Leaf" None None BOOLEAN None 0 (Some "h") [] in
  let st := mkState (<["c" := hc]> (<["h" := hh]> ∅)) [] in
  st.(habits) !! "h" = Some hh /\ st.(habits) !! "d" = None /\
  delete_habit 3 "h" st = Some (habit_repo_delete "c" st, Err NotFound) /\
  (@Err unit NotFound = Err NotFound /\
   (habit_repo_delete "c" st).(habits) !! "h" = Some hh /\
   shrinks st (habit_repo_delete "c" st) /\
   (forall st1, delete_each (delete_habit 2) ["c"] st = Some (st1, Ok tt) ->
      habit_repo_delete "c" st = st1 /\
      forall c, In c ["c"] -> (habit_repo_delete "c" st).(habits) !! c = None)).
Proof.
  intros hh hc st.
  assert (Hh : st.(habits) !! "h" = Some hh) by reflexivity.
  assert (Hd : st.(habits) !! "d" = None) by reflexivity.
  assert (Hrun : delete_habit 3 "h" st = Some (habit_repo_delete "c" st, Err NotFound))
    by (vm_compute; reflexivity).
  split; [exact Hh|split; [exact Hd|split; [exact Hrun|]]].
  exact (delete_dangling_not_atomic st "h" "d" hh ["c"] [] 2
           (habit_repo_delete "c" st) (Err NotFound) Hh eq_refl Hd Hrun).
Defined.

(** C10: a sub-habit listed before the dangling id is not deleted when
    its own deletion fails first (here on its own dangling child). *)
Lemma delete_dangling_earlier_sibling_kept :
  let hh := Habit.mk "h" "Parent" None None BOOLEAN None 0 None ["s1"; "d"] in
  let hs := Habit.mk "s1" "Sub" None None BOOLEAN None 0 (Some "h") ["d2"] in
  let st := mkState (<["s1" := hs]> (<["h" := hh]> ∅)) [] in
  st.(habits) !! "d" = None /\
  delete_habit 3 "h" st = Some (st, Err NotFound) /\
  st.(habits) !! "s1" = Some hs.
Proof.
  split; [reflexivity|split; [vm_compute; reflexivity|reflexivity]].
Qed.

(** Deleting a sub-habit directly leaves its id in the parent's
    [subhabit_ids]: the second half of the spec's linkage invariant is
    not maintained either. *)
Example delete_child_leaves_dangling_id :
  let st := fst (api_add_subhabit "b" 1 "a"
               (mkHabitCreate "Meditate" None None BOOLEAN None None)
               (fst (api_create_habit "a" 0
                  (mkHabitCreate "Morning" None None BOOLEAN None None) empty_state))) in
  exists st' pa,
    delete_habit 2 "b" st = Some (st', Ok tt) /\
    st'.(habits) !! "a" = Some pa /\ In "b" pa.(Habit.subhabit_ids) /\
    st'.(habits) !! "b" = None.
Proof.
  eexists. eexists. split; [vm_compute; reflexivity|].
  split; [vm_compute; reflexivity|]. split; [simpl; tauto|vm_compute; reflexivity].
Qed.

(* ================================================================== *)
(** * Further properties *)

(** ** Statistics *)

Lemma StatisticsResult_ext (r1 r2 : StatisticsResult) :
  r1.(current_streak) = r2.(current_streak) ->
  r1.(longest_streak) = r2.(longest_streak) ->
  r1.(total_completions) = r2.(total_completions) ->
  r1.(completion_rate) = r2.(completion_rate) ->
  r1.(average_value) = r2.(average_value) ->
  r1.(total_days_tracked) = r2.(total_days_tracked) -> r1 = r2.
Proof. destruct r1, r2; simpl; intros; subst; reflexivity. Qed.

Lemma calculate_average (habit : Habit.t) (logs : list LogEntry.t)
    (start end_ : option Z) (today : Z) :
  (calculate habit logs start end_ today).(average_value) =
  match habit.(Habit.type) with
  | BOOLEAN => None
  | NUMERIC =>
      match present_values (filter_logs_by_date logs start end_) with
      | [] => None
      | vs => Some (Qdiv (sum vs) (nat_to_Q (length vs)))
      end
  end.
Proof.
  unfold calculate, BooleanStatisticsCalculator_calculate,
    NumericStatisticsCalculator_calculate.
  destruct (Habit.type habit).
  - destruct (calculate_streaks _ today). reflexivity.
  - pose proof (numeric_loop_snd (Habit.goal habit) [] []
                  (filter_logs_by_date logs start end_)) as Hs.
    destruct (numeric_loop _ _ _ _) as [cd vs]. simpl in Hs |- *. subst vs.
    destruct (calculate_streaks cd today). simpl.
    destruct (present_values _); reflexivity.
Qed.













Lemma insert_by_date_perm (x : LogEntry.t) (l : list LogEntry.t) :
  Permutation (insert_by_date x l) (x :: l).
Proof.
  induction l as [|y l IH]; simpl; [reflexivity|].
  destruct (Z.leb _ _); [reflexivity|].
  etransitivity; [apply perm_skip; exact IH|apply perm_swap].
Qed.

Lemma sort_by_date_perm (l : list LogEntry.t) : Permutation (sort_by_date l) l.
Proof.
  unfold sort_by_date. induction l as [|x l IH]; simpl; [reflexivity|].
  etransitivity; [apply insert_by_date_perm|apply perm_skip; exact IH].
Qed.

Lemma insert_by_date_sorted (x : LogEntry.t) (l : list LogEntry.t) :
  Sorted by_date l -> Sorted by_date (insert_by_date x l).
Proof.
  unfold by_date. induction 1 as [|y l Hs IH Hhd]; simpl.
  - repeat constructor.
  - destruct (Z.leb (LogEntry.date x) (LogEntry.date y)) eqn:E.
    + apply Z.leb_le in E. constructor; [constructor; assumption|constructor; exact E].
    + apply Z.leb_gt in E. constructor; [exact IH|].
      destruct l as [|z l]; simpl; [constructor; lia|].
      inversion Hhd; subst.
      destruct (Z.leb (LogEntry.date x) (LogEntry.date z)); constructor; lia.
Qed.

Lemma sort_by_date_sorted (l : list LogEntry.t) : Sorted by_date (sort_by_date l).
Proof.
  unfold sort_by_date. induction l as [|x l IH]; simpl; [constructor|].
  apply insert_by_date_sorted. exact IH.
Qed.

Lemma logs_on_insert (d : Z) (x : LogEntry.t) (l : list LogEntry.t) :
  logs_on d (insert_by_date x l) = logs_on d (x :: l).
Proof.
  unfold logs_on. induction l as [|y l IH]; simpl; [reflexivity|].
  destruct (Z.leb (LogEntry.date x) (LogEntry.date y)) eqn:E; [reflexivity|].
  apply Z.leb_gt in E. simpl. rewrite IH. simpl.
  destruct (Z.eqb (LogEntry.date x) d) eqn:Ex, (Z.eqb (LogEntry.date y) d) eqn:Ey;
    try reflexivity.
  apply Z.eqb_eq in Ex, Ey. lia.
Qed.

Lemma logs_on_sort (d : Z) (l : list LogEntry.t) :
  logs_on d (sort_by_date l) = logs_on d l.
Proof.
  unfold sort_by_date. induction l as [|x l IH]; simpl; [reflexivity|].
  rewrite logs_on_insert. unfold logs_on in *. simpl. rewrite IH. reflexivity.
Qed.

(** The repository's window filter is the calculator's. *)
Lemma log_repo_list_for_habit_eq (hid : string) (start end_ : option Z) (st : State) :
  log_repo_list_for_habit hid start end_ st =
  sort_by_date (filter_logs_by_date
    (List.filter (fun log => String.eqb log.(LogEntry.habit_id) hid) st.(logs))
    start end_).
Proof. reflexivity. Qed.

Lemma habit_logs_in_window_eq (hid : string) (start end_ : option Z)
    (l : list LogEntry.t) :
  habit_logs_in_window hid start end_ l =
  filter_logs_by_date (List.filter (fun log => String.eqb log.(LogEntry.habit_id) hid) l)
    start end_.
Proof.
  unfold habit_logs_in_window, filter_logs_by_date.
  induction l as [|x l IH]; [destruct start, end_; reflexivity|].
  simpl. rewrite IH.
  destruct (String.eqb (LogEntry.habit_id x) hid); simpl;
    destruct start as [s|], end_ as [e|]; simpl; rewrite ?andb_true_r;
    try reflexivity;
    repeat match goal with
    | |- context [Z.leb ?a ?b] => destruct (Z.leb a b); simpl
    end; reflexivity.
Qed.

Lemma max_back_run_le_length (s l : list Z) : (max_back_run s l <= length s)%nat.
Proof.
  induction l as [|x l IH]; simpl; [lia|].
  pose proof (back_run_bound s x (back_run s x) (proj1 (back_run_spec s x))). lia.
Qed.

Lemma max_back_run_pos (s : list Z) : s <> [] -> (0 < max_back_run s s)%nat.
Proof.
  intros Hne. destruct s as [|x r] eqn:Es; [congruence|]. rewrite <- Es.
  assert (Hx : In x s) by (rewrite Es; left; reflexivity).
  pose proof (max_back_run_ge s s x Hx) as H. rewrite (back_run_next s x Hx) in H. lia.
Qed.

Lemma window_bool_spec (start end_ : option Z) (d : Z) :
  (match start with Some s => Z.leb s d | None => true end &&
   match end_ with Some e => Z.leb d e | None => true end) = true <->
  in_window start end_ d.
Proof.
  unfold in_window. rewrite andb_true_iff.
  destruct start, end_; rewrite ?Z.leb_le; tauto.
Qed.

(** Statistics over no entries in the window are all zero. *)
Lemma calculate_no_filtered (habit : Habit.t) (logs : list LogEntry.t)
    (start end_ : option Z) (today : Z) :
  filter_logs_by_date logs start end_ = [] ->
  calculate habit logs start end_ today = zero_result.
Proof.
  intros E. destruct (calculate_fields habit logs start end_ today) as (S1 & T1 & D1 & R1).
  pose proof (calculate_average habit logs start end_ today) as A1.
  rewrite E in S1, T1, D1, R1, A1.
  assert (Hcd : completed_dates_of habit [] = []) by
    (unfold completed_dates_of; destruct (Habit.type habit); reflexivity).
  rewrite Hcd in S1, T1, R1. simpl in S1. injection S1 as S1 S1'.
  apply StatisticsResult_ext; simpl; try assumption.
  destruct (Habit.type habit); exact A1.
Qed.

(** X1. With no log entries, or a window whose start lies after its
    end, every statistic is zero: both streaks, the completions, the
    rate and the days tracked are 0 and the average is absent. *)
Theorem calculate_empty_window (habit : Habit.t) (logs : list LogEntry.t)
    (start end_ : option Z) (today : Z) :
  (logs = [] \/ exists s e, start = Some s /\ end_ = Some e /\ (e < s)%Z) ->
  calculate habit logs start end_ today = zero_result.
Proof.
  intros H. apply calculate_no_filtered.
  destruct (filter_logs_by_date logs start end_) as [|x r] eqn:E; [reflexivity|].
  exfalso. assert (Hx : In x (filter_logs_by_date logs start end_)) by
    (rewrite E; left; reflexivity).
  apply filter_logs_by_date_In in Hx as [Hin Hw].
  destruct H as [->|(s & e & -> & -> & Hlt)]; [exact Hin|].
  destruct Hw as [H1 H2]. lia.
Qed.

Lemma calculate_empty_window_witness :
  let h := Habit.mk "h" "Run" None None BOOLEAN None 0 None [] in
  let logs := [log_at 5 (Some 1%Q)] in
  ((logs = [] \/ exists s e, Some 10%Z = Some s /\ Some 3%Z = Some e /\ (e < s)%Z) /\
   calculate h logs (Some 10%Z) (Some 3%Z) 5 = zero_result).
Proof.
  intros h logs.
  assert (H : logs = [] \/ exists s e, Some 10%Z = Some s /\ Some 3%Z = Some e /\ (e < s)%Z).
  { right. exists 10%Z, 3%Z. split; [reflexivity|split; [reflexivity|lia]]. }
  split; [exact H|exact (calculate_empty_window h logs (Some 10%Z) (Some 3%Z) 5 H)].
Defined.

(** X2. For every habit, log list and window: [current_streak <=
    longest_streak <= total_completions <= total_days_tracked], and the
    longest streak is positive exactly when some date is completed. *)
Theorem calculate_bounds (habit : Habit.t) (logs : list LogEntry.t)
    (start end_ : option Z) (today : Z) :
  let r := calculate habit logs start end_ today in
  (r.(current_streak) <= r.(longest_streak) <= r.(total_completions))%nat /\
  (r.(total_completions) <= r.(total_days_tracked))%nat /\
  ((0 < r.(longest_streak))%nat <-> (0 < r.(total_completions))%nat).
Proof.
  intros r.
  destruct (current_le_longest habit logs start end_ today) as [Hcl _].
  destruct (calculate_fields habit logs start end_ today) as (S1 & T1 & D1 & _).
  fold r in Hcl, S1, T1, D1.
  set (cd := completed_dates_of habit (filter_logs_by_date logs start end_)) in S1, T1.
  rewrite (calculate_streaks_eq cd today (completed_dates_of_NoDup _ _)) in S1.
  injection S1 as _ Hl.
  pose proof (completed_le_filtered habit (filter_logs_by_date logs start end_)).
  split; [split; [exact Hcl|]|split].
  - rewrite Hl, T1. apply max_back_run_le_length.
  - rewrite T1, D1. assumption.
  - rewrite Hl, T1. split.
    + intros Hp. destruct cd; [simpl in Hp; lia|simpl; lia].
    + intros Hp. apply max_back_run_pos. intros E. rewrite E in Hp. simpl in Hp. lia.
Qed.




(** X5. Recording an entry for another habit, or one dated outside the
    window, leaves a habit's statistics for that window unchanged. *)
Theorem get_statistics_record_log_elsewhere (today : Z) (hid : string)
    (start end_ : option Z) (st : State) (log_id : string) (now : Z)
    (hid' : string) (d : Z) (v : option Q) :
  (hid' <> hid \/ ~ in_window start end_ d) ->
  snd (get_statistics today hid start end_ (fst (record_log log_id now hid' d v st))) =
  snd (get_statistics today hid start end_ st).
Proof.
  intros Hout. unfold record_log, habit_repo_get.
  destruct (habits st !! hid') as [h'|]; [|reflexivity]. simpl.
  unfold get_statistics, habit_repo_get, log_repo_add. simpl.
  destruct (habits st !! hid) as [habit|]; [|reflexivity]. simpl.
  rewrite !log_repo_list_for_habit_eq. simpl.
  rewrite <- !habit_logs_in_window_eq. unfold habit_logs_in_window.
  rewrite List.filter_app. simpl.
  replace (String.eqb hid' hid && _ && _) with false; [rewrite app_nil_r; reflexivity|].
  symmetry. destruct Hout as [Hne|Hw].
  - apply String.eqb_neq in Hne. rewrite Hne. reflexivity.
  - destruct (String.eqb hid' hid); [|reflexivity]. simpl.
    apply not_true_iff_false. rewrite window_bool_spec. exact Hw.
Qed.

Lemma get_statistics_record_log_elsewhere_witness :
  let st := mkState (<["a" := Habit.mk "a" "A" None None BOOLEAN None 0 None []]>
                     (<["b" := Habit.mk "b" "B" None None BOOLEAN None 0 None []]> ∅)) [] in
  ("b" <> "a" \/ ~ in_window None None 7%Z) /\
  snd (get_statistics 7 "a" None None (fst (record_log "l1" 0 "b" 7 (Some 1%Q) st))) =
  snd (get_statistics 7 "a" None None st).
Proof.
  intros st. assert (H : "b" <> "a" \/ ~ in_window None None 7%Z) by (left; discriminate).
  split; [exact H|exact (get_statistics_record_log_elsewhere 7 "a" None None st "l1" 0 "b" 7 _ H)].
Defined.

(** ** In-memory repositories *)

(** X6. Habit repository round trips: after [add] a [get] of the habit's
    id returns it and other ids are unaffected; after [delete] a [get]
    returns [None], other ids are unaffected and deleting an absent id
    changes nothing; deleting a freshly added id restores the store. *)
Theorem habit_repo_round_trips (habit : Habit.t) (k : string) (st : State) :
  habit_repo_get k (habit_repo_add habit st) =
    (if String.eqb k habit.(Habit.id) then Some habit else habit_repo_get k st) /\
  habit_repo_get k (habit_repo_delete habit.(Habit.id) st) =
    (if String.eqb k habit.(Habit.id) then None else habit_repo_get k st) /\
  (habit_repo_get habit.(Habit.id) st = None ->
     habit_repo_delete habit.(Habit.id) st = st /\
     habit_repo_delete habit.(Habit.id) (habit_repo_add habit st) = st).
Proof.
  unfold habit_repo_get, habit_repo_add, habit_repo_delete. simpl.
  destruct (String.eqb_spec k habit.(Habit.id)) as [->|Hne].
  - rewrite lookup_insert_eq, lookup_delete_eq. split; [reflexivity|split; [reflexivity|]].
    intros Hn. destruct st as [hs ls]. simpl in *. split.
    + rewrite delete_id by exact Hn. reflexivity.
    + rewrite delete_insert_eq, delete_id by exact Hn. reflexivity.
  - rewrite lookup_insert_ne, lookup_delete_ne by congruence.
    split; [reflexivity|split; [reflexivity|]].
    intros Hn. destruct st as [hs ls]. simpl in *. split.
    + rewrite delete_id by exact Hn. reflexivity.
    + rewrite delete_insert_eq, delete_id by exact Hn. reflexivity.
Qed.

Lemma habit_repo_round_trips_witness :
  let h := Habit.mk "a" "Walk" None None BOOLEAN None 0 None [] in
  habit_repo_get "a" (habit_repo_add h empty_state) = Some h /\
  (habit_repo_get "a" empty_state = None ->
   habit_repo_delete "a" empty_state = empty_state /\
   habit_repo_delete "a" (habit_repo_add h empty_state) = empty_state).
Proof.
  intros h. destruct (habit_repo_round_trips h "a" empty_state) as (H1 & _ & H3).
  split; [exact H1|exact H3].
Defined.

(** X7. [update] raises [KeyError] and changes nothing when no habit is
    stored under the habit's id; otherwise a following [get] returns the
    new habit, other ids are unaffected and no id is added. *)
Theorem habit_repo_update_get (habit : Habit.t) (st : State) :
  match habit_repo_get habit.(Habit.id) st with
  | None => habit_repo_update habit st = (st, Err KeyError)
  | Some _ =>
      exists st', habit_repo_update habit st = (st', Ok tt) /\
        st'.(logs) = st.(logs) /\
        (forall k, habit_repo_get k st' =
           if String.eqb k habit.(Habit.id) then Some habit else habit_repo_get k st) /\
        dom st'.(habits) = dom st.(habits)
  end.
Proof.
  unfold habit_repo_update, habit_repo_get.
  destruct (habits st !! Habit.id habit) as [old|] eqn:E; [|reflexivity].
  eexists. split; [reflexivity|]. simpl. split; [reflexivity|split].
  - intros k. destruct (String.eqb_spec k habit.(Habit.id)) as [->|Hne].
    + apply lookup_insert_eq.
    + rewrite lookup_insert_ne by congruence. reflexivity.
  - rewrite dom_insert_L. apply set_eq. intros x. rewrite elem_of_union, elem_of_singleton.
    split; [|tauto]. intros [->|Hx]; [|exact Hx]. apply elem_of_dom. rewrite E. eauto.
Qed.

(** X8. [list_for_habit] returns exactly the habit's entries inside the
    inclusive window (a permutation of them), sorted by ascending
    date. *)
Theorem log_repo_list_for_habit_sorted (hid : string) (start end_ : option Z)
    (st : State) :
  let l := log_repo_list_for_habit hid start end_ st in
  Sorted by_date l /\
  Permutation l (habit_logs_in_window hid start end_ st.(logs)) /\
  (forall log, In log l <->
     In log st.(logs) /\ log.(LogEntry.habit_id) = hid /\
     in_window start end_ log.(LogEntry.date)).
Proof.
  intros l. unfold l. rewrite log_repo_list_for_habit_eq, <- habit_logs_in_window_eq.
  assert (Hp := sort_by_date_perm (habit_logs_in_window hid start end_ (logs st))).
  split; [apply sort_by_date_sorted|split; [exact Hp|]].
  intros log. split.
  - intros Hin. apply (Permutation_in _ Hp) in Hin. unfold habit_logs_in_window in Hin.
    apply filter_In in Hin as [Hin Hb]. rewrite <- andb_assoc, andb_true_iff in Hb.
    destruct Hb as [Hh Hw]. apply String.eqb_eq in Hh.
    rewrite window_bool_spec in Hw. auto.
  - intros (Hin & Hh & Hw). apply (Permutation_in _ (Permutation_sym Hp)).
    unfold habit_logs_in_window. apply filter_In. split; [exact Hin|].
    rewrite <- andb_assoc, andb_true_iff, window_bool_spec, String.eqb_eq. auto.
Qed.

(** X9. The date sort of [list_for_habit] is stable: the entries of any
    one date come out in the order they were recorded. *)
Theorem log_repo_list_for_habit_stable (hid : string) (start end_ : option Z)
    (st : State) (d : Z) :
  logs_on d (log_repo_list_for_habit hid start end_ st) =
  logs_on d (habit_logs_in_window hid start end_ st.(logs)).
Proof.
  rewrite log_repo_list_for_habit_eq, <- habit_logs_in_window_eq. apply logs_on_sort.
Qed.

(** ** Service and endpoints *)

Lemma logs_on_app (d : Z) (l l' : list LogEntry.t) :
  logs_on d (l ++ l') = logs_on d l ++ logs_on d l'.
Proof. apply List.filter_app. Qed.

Lemma habit_logs_in_window_app (hid : string) (start end_ : option Z)
    (l : list LogEntry.t) (log : LogEntry.t) :
  habit_logs_in_window hid start end_ (l ++ [log]) =
  habit_logs_in_window hid start end_ l ++
  (if String.eqb log.(LogEntry.habit_id) hid &&
      (match start with Some s => Z.leb s log.(LogEntry.date) | None => true end &&
       match end_ with Some e => Z.leb log.(LogEntry.date) e | None => true end)
   then [log] else []).
Proof.
  unfold habit_logs_in_window. rewrite List.filter_app. simpl.
  rewrite andb_assoc. reflexivity.
Qed.

(** X10. Recording an entry for a stored habit appends exactly that
    entry to the log store and leaves the habits alone; [get_logs] for
    the habit then lists it iff its date lies in the window, as the last
    entry of that date, and otherwise returns the same list as before. *)
Theorem record_log_then_get_logs (log_id : string) (now : Z) (hid : string)
    (d : Z) (v : option Q) (start end_ : option Z) (st : State) (H : Habit.t) :
  st.(habits) !! hid = Some H ->
  let log := LogEntry.mk log_id hid d v now in
  let st' := fst (record_log log_id now hid d v st) in
  snd (record_log log_id now hid d v st) = Ok log /\
  st'.(habits) = st.(habits) /\ st'.(logs) = st.(logs) ++ [log] /\
  exists l l', get_logs hid start end_ st = (st, Ok l) /\
    get_logs hid start end_ st' = (st', Ok l') /\
    (in_window start end_ d ->
       Permutation l' (l ++ [log]) /\ logs_on d l' = logs_on d l ++ [log]) /\
    (~ in_window start end_ d -> l' = l).
Proof.
  intros Hh log st'. unfold st', record_log, habit_repo_get. rewrite Hh. simpl.
  split; [reflexivity|split; [reflexivity|split; [reflexivity|]]].
  unfold get_logs, habit_repo_get. simpl. rewrite Hh.
  eexists. eexists. split; [reflexivity|split; [reflexivity|]].
  rewrite !log_repo_list_for_habit_eq. simpl. rewrite <- !habit_logs_in_window_eq.
  rewrite habit_logs_in_window_app. unfold log. simpl. rewrite String.eqb_refl. simpl.
  split.
  - intros Hw. apply window_bool_spec in Hw. rewrite Hw. split.
    + etransitivity; [apply sort_by_date_perm|].
      apply Permutation_app_tail. apply Permutation_sym, sort_by_date_perm.
    + rewrite !logs_on_sort, logs_on_app. unfold logs_on at 2. simpl.
      rewrite Z.eqb_refl. reflexivity.
  - intros Hw. rewrite <- window_bool_spec in Hw. apply not_true_iff_false in Hw.
    rewrite Hw, app_nil_r. reflexivity.
Qed.

Lemma record_log_then_get_logs_witness :
  let H := Habit.mk "a" "Walk" None None BOOLEAN None 0 None [] in
  let st := mkState (<["a" := H]> ∅) [] in
  st.(habits) !! "a" = Some H /\
  (let log := LogEntry.mk "l1" "a" 5 (Some 1%Q) 0 in
   let st' := fst (record_log "l1" 0 "a" 5 (Some 1%Q) st) in
   snd (record_log "l1" 0 "a" 5 (Some 1%Q) st) = Ok log /\
   st'.(habits) = st.(habits) /\ st'.(logs) = st.(logs) ++ [log] /\
   exists l l', get_logs "a" None None st = (st, Ok l) /\
     get_logs "a" None None st' = (st', Ok l') /\
     (in_window None None 5 -> Permutation l' (l ++ [log]) /\
        logs_on 5 l' = logs_on 5 l ++ [log]) /\
     (~ in_window None None 5 -> l' = l)).
Proof.
  intros H st. assert (Hh : st.(habits) !! "a" = Some H) by reflexivity.
  split; [exact Hh|exact (record_log_then_get_logs "l1" 0 "a" 5 (Some 1%Q) None None st H Hh)].
Defined.

(** X11. Adding a sub-habit [sub] (with an id other than [p]) under a
    stored parent [p], kept under its own id, succeeds: the sub-habit is
    stored with [parent_id = p], the parent's [subhabit_ids] gain the
    sub-habit's id at the end, no other habit and no log changes. *)
Theorem add_subhabit_links (st : State) (p : string) (P sub : Habit.t) :
  st.(habits) !! p = Some P -> P.(Habit.id) = p -> sub.(Habit.id) <> p ->
  let '(st', r) := add_subhabit p sub st in
  r = Ok tt /\ st'.(logs) = st.(logs) /\
  st'.(habits) !! p =
    Some (set_subhabit_ids P (P.(Habit.subhabit_ids) ++ [sub.(Habit.id)])) /\
  st'.(habits) !! sub.(Habit.id) = Some (set_parent_id sub (Some p)) /\
  (forall k, k <> p -> k <> sub.(Habit.id) -> st'.(habits) !! k = st.(habits) !! k).
Proof.
  intros HP HPid Hsub. unfold add_subhabit, habit_repo_get. rewrite HP.
  unfold habit_repo_update, habit_repo_add. simpl. rewrite HPid.
  rewrite lookup_insert_ne by congruence. rewrite HP. simpl.
  split; [reflexivity|split; [reflexivity|split; [|split]]].
  - apply lookup_insert_eq.
  - rewrite lookup_insert_ne by congruence. apply lookup_insert_eq.
  - intros k Hk1 Hk2. rewrite !lookup_insert_ne by congruence. reflexivity.
Qed.

Lemma add_subhabit_links_witness :
  let P := Habit.mk "a" "Morning" None None BOOLEAN None 0 None [] in
  let sub := Habit.mk "b" "Stretch" None None BOOLEAN None 1 None [] in
  let st := mkState (<["a" := P]> ∅) [] in
  (st.(habits) !! "a" = Some P /\ P.(Habit.id) = "a" /\ sub.(Habit.id) <> "a") /\
  (let '(st', r) := add_subhabit "a" sub st in
   r = Ok tt /\ st'.(logs) = st.(logs) /\
   st'.(habits) !! "a" =
     Some (set_subhabit_ids P (P.(Habit.subhabit_ids) ++ [sub.(Habit.id)])) /\
   st'.(habits) !! sub.(Habit.id) = Some (set_parent_id sub (Some "a")) /\
   (forall k, k <> "a" -> k <> sub.(Habit.id) -> st'.(habits) !! k = st.(habits) !! k)).
Proof.
  intros P sub st.
  assert (H1 : st.(habits) !! "a" = Some P) by reflexivity.
  assert (H3 : sub.(Habit.id) <> "a") by discriminate.
  split; [split; [exact H1|split; [reflexivity|exact H3]]|].
  exact (add_subhabit_links st "a" P sub H1 eq_refl H3).
Defined.






(** X14. A successful delete removes no log entry: the log store is
    unchanged, so the deleted habit's entries stay stored, while
    [get_logs] and [get_statistics] on the deleted id now raise
    not-found. *)
Theorem delete_habit_keeps_logs (fuel : nat) (hid : string) (st st' : State)
    (start end_ : option Z) (today : Z) :
  delete_habit fuel hid st = Some (st', Ok tt) ->
  st'.(logs) = st.(logs) /\
  get_logs hid start end_ st' = (st', Err NotFound) /\
  get_statistics today hid start end_ st' = (st', Err NotFound).
Proof.
  intros Hd. pose proof (delete_habit_ok_absent _ _ _ _ Hd) as Ha.
  destruct (delete_habit_shrinks _ _ _ _ _ Hd) as [_ Hl].
  unfold get_logs, get_statistics, habit_repo_get. rewrite Ha. auto.
Qed.

Lemma delete_habit_keeps_logs_witness :
  let H := Habit.mk "a" "Walk" None None BOOLEAN None 0 None [] in
  let st := mkState (<["a" := H]> ∅) [LogEntry.mk "l1" "a" 5 (Some 1%Q) 0] in
  delete_habit 1 "a" st = Some (habit_repo_delete "a" st, Ok tt) /\
  (habit_repo_delete "a" st).(logs) = st.(logs) /\
  get_logs "a" None None (habit_repo_delete "a" st) = (habit_repo_delete "a" st, Err NotFound) /\
  get_statistics 5 "a" None None (habit_repo_delete "a" st) =
    (habit_repo_delete "a" st, Err NotFound).
Proof.
  intros H st. assert (Hd : delete_habit 1 "a" st = Some (habit_repo_delete "a" st, Ok tt))
    by reflexivity.
  split; [exact Hd|exact (delete_habit_keeps_logs 1 "a" st _ None None 5 Hd)].
Defined.



(** X16. After [DELETE] of a sub-habit [c] of [p] answers 204 (and [p]
    is still stored), a [DELETE] of [p] that finishes answers 404 "Habit
    not found", while [GET /habits/{p}] keeps answering 200 with [p]: the
    parent still lists the deleted id. *)
Theorem delete_parent_after_child (p c : string) (P : Habit.t) (fuel1 fuel2 : nat)
    (st st1 st2 : State) (resp : response unit) :
  In c P.(Habit.subhabit_ids) ->
  api_delete_habit fuel1 c st = Some (st1, Response 204 tt) ->
  st1.(habits) !! p = Some P ->
  api_delete_habit fuel2 p st1 = Some (st2, resp) ->
  resp = HTTPException 404 /\ api_get_habit p st2 = Response 200 (habit_read P).
Proof.
  intros Hc H1 Hp H2. unfold api_delete_habit in H1, H2.
  destruct (delete_habit fuel1 c st) as [[st1' [[]|e]]|] eqn:E1;
    [|destruct e; discriminate|discriminate].
  injection H1 as <-. pose proof (delete_habit_ok_absent _ _ _ _ E1) as Hca.
  assert (Hk : keeps_habit p c P st1') by (split; assumption).
  destruct (delete_habit fuel2 p st1') as [[st2' r]|] eqn:E2; [|discriminate].
  pose proof (delete_habit_keeps_h p c P Hc fuel2 p st1' st2' r Hk E2) as Hp2.
  destruct r as [[]|e].
  - exfalso. apply delete_habit_ok_absent in E2. congruence.
  - rewrite (delete_habit_err _ _ _ _ _ E2) in H2. injection H2 as <- <-.
    split; [reflexivity|]. unfold api_get_habit, get_habit, habit_repo_get.
    rewrite Hp2. reflexivity.
Qed.

Lemma delete_parent_after_child_witness :
  let st := fst (api_add_subhabit "b" 1 "a"
               (mkHabitCreate "Meditate" None None BOOLEAN None None)
               (fst (api_create_habit "a" 0
                  (mkHabitCreate "Morning" None None BOOLEAN None None) empty_state))) in
  let P := Habit.mk "a" "Morning" None None BOOLEAN None 0 None ["b"] in
  let st1 := habit_repo_delete "b" st in
  In "b" P.(Habit.subhabit_ids) /\
  api_delete_habit 2 "b" st = Some (st1, Response 204 tt) /\
  st1.(habits) !! "a" = Some P /\
  api_delete_habit 2 "a" st1 = Some (st1, HTTPException 404) /\
  (HTTPException 404 = @HTTPException unit 404 /\
   api_get_habit "a" st1 = Response 200 (habit_read P)).
Proof.
  intros st P st1.
  assert (Hc : In "b" P.(Habit.subhabit_ids)) by (left; reflexivity).
  assert (H1 : api_delete_habit 2 "b" st = Some (st1, Response 204 tt))
    by (vm_compute; reflexivity).
  assert (Hp : st1.(habits) !! "a" = Some P) by (vm_compute; reflexivity).
  assert (H2 : api_delete_habit 2 "a" st1 = Some (st1, HTTPException 404))
    by (vm_compute; reflexivity).
  split; [exact Hc|split; [exact H1|split; [exact Hp|split; [exact H2|]]]].
  exact (delete_parent_after_child "a" "b" P 2 2 st st1 st1 _ Hc H1 Hp H2).
Defined.

(** X17. [POST /habits] followed by [GET /habits/{id}] of the returned
    id answers 200 with the created habit: name, description, category,
    type and goal of the payload, and the payload's [parent_id]. *)
Theorem api_create_then_get (new_id : string) (now : Z) (payload : HabitCreate)
    (st : State) :
  let '(st', h) := api_create_habit new_id now payload st in
  h.(Habit.id) = new_id /\
  api_get_habit new_id st' =
  Response 200 (HabitRead.mk new_id payload.(c_name) payload.(c_description)
                  payload.(c_category) payload.(c_type) payload.(c_goal)
                  payload.(c_parent_id)).
Proof.
  simpl. split; [reflexivity|]. unfold api_get_habit, get_habit, habit_repo_get. simpl.
  rewrite lookup_insert_eq. reflexivity.
Qed.

(* ------------------------------------------------------------------ *)
(** ** JSON text of [subhabit_ids] *)

Lemma string_app_cons (c : Ascii.ascii) (a b : string) :
  (String c a ++ b)%string = String c (a ++ b).
Proof. reflexivity. Qed.

Lemma string_app_nil (b : string) : (EmptyString ++ b)%string = b.
Proof. reflexivity. Qed.

Lemma string_app_assoc (a b c : string) :
  ((a ++ b) ++ c)%string = (a ++ (b ++ c))%string.
Proof.
  induction a as [|x a IH]; [reflexivity|].
  rewrite !string_app_cons, IH. reflexivity.
Qed.

Lemma hex_value_digit (k : nat) : k < 16 -> hex_value (hex_digit k) = Some k.
Proof. intros H. do 16 (destruct k as [|k]; [reflexivity|]). lia. Qed.

Lemma scanstring_plain (c : Ascii.ascii) (r : string) :
  Ascii.nat_of_ascii c <> 34 -> Ascii.nat_of_ascii c <> 92 -> 32 <= Ascii.nat_of_ascii c ->
  scanstring (String c r) =
  match scanstring r with Some (x, rest) => Some (String c x, rest) | None => None end.
Proof.
  intros H1 H2 H3. cbn [scanstring].
  destruct (Nat.eqb_spec (Ascii.nat_of_ascii c) 34); [lia|].
  destruct (Nat.eqb_spec (Ascii.nat_of_ascii c) 92); [lia|].
  destruct (Nat.ltb_spec (Ascii.nat_of_ascii c) 32); [lia|]. reflexivity.
Qed.

Lemma scanstring_u (a b c d : Ascii.ascii) (r : string) (u : nat) :
  hex4 a b c d = Some u -> u < 256 ->
  scanstring (String backslash (String (Ascii.ascii_of_nat 117) (String a (String b (String c (String d r)))))) =
  match scanstring r with Some (x, rest) => Some (String (Ascii.ascii_of_nat u) x, rest) | None => None end.
Proof.
  intros H Hu. cbn [scanstring]. change (Ascii.nat_of_ascii backslash) with 92.
  change (Ascii.nat_of_ascii (Ascii.ascii_of_nat 117)) with 117.
  cbn [Nat.eqb]. rewrite H. destruct (Nat.ltb_spec u 256); [reflexivity|lia].
Qed.

Lemma hex4_00_ok (h1 h2 : Ascii.ascii) (x y u : nat) :
  hex_value h1 = Some x -> hex_value h2 = Some y -> x * 16 + y = u ->
  hex4 (Ascii.ascii_of_nat 48) (Ascii.ascii_of_nat 48) h1 h2 = Some u.
Proof. intros H1 H2 <-. unfold hex4. rewrite H1, H2. reflexivity. Qed.

Lemma scanstring_escape (x rest : string) :
  scanstring (json_escape x ++ String quote rest)%string = Some (x, rest).
Proof.
  induction x as [|a x IH]; [reflexivity|].
  cbn [json_escape]. rewrite string_app_assoc.
  pose proof (Ascii.nat_ascii_bounded a) as Hb.
  rewrite <- (Ascii.ascii_nat_embedding a).
  remember (Ascii.nat_of_ascii a) as n eqn:Hn. clear a Hn.
  unfold json_escape_char. rewrite (Ascii.nat_ascii_embedding n Hb).
  destruct (Nat.eqb_spec n 34) as [->|H34]; [rewrite ?string_app_cons, ?string_app_nil; simpl; rewrite IH; reflexivity|].
  destruct (Nat.eqb_spec n 92) as [->|H92]; [rewrite ?string_app_cons, ?string_app_nil; simpl; rewrite IH; reflexivity|].
  destruct (Nat.eqb_spec n 8) as [->|H8]; [rewrite ?string_app_cons, ?string_app_nil; simpl; rewrite IH; reflexivity|].
  destruct (Nat.eqb_spec n 12) as [->|H12]; [rewrite ?string_app_cons, ?string_app_nil; simpl; rewrite IH; reflexivity|].
  destruct (Nat.eqb_spec n 10) as [->|H10]; [rewrite ?string_app_cons, ?string_app_nil; simpl; rewrite IH; reflexivity|].
  destruct (Nat.eqb_spec n 13) as [->|H13]; [rewrite ?string_app_cons, ?string_app_nil; simpl; rewrite IH; reflexivity|].
  destruct (Nat.eqb_spec n 9) as [->|H9]; [rewrite ?string_app_cons, ?string_app_nil; simpl; rewrite IH; reflexivity|].
  destruct (Nat.leb_spec 32 n), (Nat.leb_spec n 126); cbn [andb].
  1: { rewrite string_app_cons, string_app_nil. rewrite scanstring_plain, IH;
      rewrite ?(Ascii.nat_ascii_embedding n Hb); auto. }
  all: rewrite string_app_assoc.
  all: assert (Hd : n / 16 < 16) by (apply Nat.Div0.div_lt_upper_bound; lia).
  all: assert (Hm : n mod 16 < 16) by (apply Nat.mod_upper_bound; lia).
  all: etransitivity;
    [apply (scanstring_u _ _ _ _ _ n); [|lia]|rewrite IH; reflexivity].
  all: apply hex4_00_ok with (x := n / 16) (y := n mod 16);
    [apply hex_value_digit; exact Hd|apply hex_value_digit; exact Hm
    |pose proof (Nat.div_mod_eq n 16); lia].
Qed.

Ltac norm_app :=
  repeat first [rewrite string_app_assoc | rewrite string_app_cons | rewrite string_app_nil].

Lemma parse_items_step (f : nat) (x r : string) :
  parse_items (S f) (String quote (json_escape x ++ String quote r))%string =
  match skip_ws r with
  | String d rest' =>
      if Nat.eqb (Ascii.nat_of_ascii d) 93 then Some ([x], rest')
      else if Nat.eqb (Ascii.nat_of_ascii d) 44 then
        match parse_items f (skip_ws rest') with
        | Some (xs, t) => Some (x :: xs, t)
        | None => None
        end
      else None
  | EmptyString => None
  end.
Proof. cbn [parse_items]. change (Ascii.nat_of_ascii quote) with 34. cbn [Nat.eqb].
  rewrite scanstring_escape. reflexivity. Qed.

Lemma parse_items_encoded (rest : list string) : forall (x t : string) (f : nat),
  length rest < f ->
  parse_items f ((json_encode_string x ++
    List.fold_right (fun y acc => ", " ++ json_encode_string y ++ acc) "]" rest) ++ t)%string
  = Some (x :: rest, t).
Proof.
  induction rest as [|y ys IH]; intros x t [|f] Hf; try (simpl in Hf; lia).
  - unfold json_encode_string. cbn [List.fold_right]. norm_app.
    rewrite parse_items_step. reflexivity.
  - specialize (IH y t f ltac:(simpl in Hf; lia)).
    unfold json_encode_string in *. cbn [List.fold_right] in *. norm_app.
    rewrite parse_items_step. simpl skip_ws. cbv iota beta. simpl Nat.eqb. cbv iota beta.
    revert IH. norm_app. intros IH.
    change (skip_ws (String ?c (String quote ?r))) with (String quote r).
    rewrite IH. reflexivity.
Qed.

Lemma string_app_nil_r (a : string) : (a ++ EmptyString)%string = a.
Proof. induction a as [|c a IH]; [reflexivity|]. rewrite string_app_cons, IH. reflexivity. Qed.

Lemma string_length_app (a b : string) :
  String.length (a ++ b)%string = String.length a + String.length b.
Proof. induction a as [|c a IH]; [reflexivity|]. rewrite string_app_cons. simpl. lia. Qed.

Lemma items_length (rest : list string) :
  length rest < String.length
    (List.fold_right (fun y acc => ", " ++ json_encode_string y ++ acc) "]" rest)%string.
Proof.
  induction rest as [|y ys IH]; [simpl; lia|].
  cbn [List.fold_right]. rewrite !string_length_app. simpl. lia.
Qed.

(** [json.loads] inverts [json.dumps] on every list of ids. *)
Lemma json_loads_dumps (ids : list string) : json_loads_ids (json_dumps_ids ids) = Some ids.
Proof.
  destruct ids as [|x rest]; [reflexivity|].
  unfold json_dumps_ids.
  set (T := List.fold_right (fun y acc => ", " ++ json_encode_string y ++ acc)%string "]" rest).
  assert (Hl : length rest < String.length (json_encode_string x ++ T)%string).
  { rewrite string_length_app. pose proof (items_length rest). subst T. lia. }
  pose proof (parse_items_encoded rest x EmptyString _ Hl) as Hp.
  rewrite string_app_nil_r in Hp. fold T in Hp.
  set (r := (json_encode_string x ++ T)%string) in *.
  assert (Hr : r = String quote (json_escape x ++ String quote T)%string).
  { subst r. unfold json_encode_string. norm_app. reflexivity. }
  rewrite string_app_cons, string_app_nil.
  unfold json_loads_ids.
  change (skip_ws (String ?c r)) with (String c r).
  cbv iota beta zeta.
  change (Nat.eqb (Ascii.nat_of_ascii ?c) 91) with true.
  cbv iota beta.
  assert (Hs : skip_ws r = r) by (rewrite Hr; reflexivity).
  rewrite Hs. rewrite Hr at 1.
  change (Nat.eqb (Ascii.nat_of_ascii quote) 93) with false.
  cbv iota beta. rewrite Hp. reflexivity.
Qed.

(* ------------------------------------------------------------------ *)
(** ** SQLiteHabitRepository *)

Lemma habit_type_of_value_round (t : HabitType) :
  habit_type_of_value (habit_type_value t) = Some t.
Proof. destruct t; reflexivity. Qed.

Lemma habit_from_to_row (h : Habit.t) : habit_from_row (habit_to_row h) = Some h.
Proof.
  unfold habit_from_row, habit_to_row. cbn.
  rewrite habit_type_of_value_round, json_loads_dumps. destruct h; reflexivity.
Qed.

Lemma habit_from_row_id (row : HabitRow.t) (h : Habit.t) :
  habit_from_row row = Some h -> h.(Habit.id) = row.(HabitRow.id).
Proof.
  unfold habit_from_row.
  destruct (habit_type_of_value row.(HabitRow.type)), (json_loads_ids row.(HabitRow.subhabit_ids));
    intros E; inversion E; reflexivity.
Qed.

(** The row [update] writes over a row decoding to [old]. *)
Lemma updated_row_decodes (row : HabitRow.t) (old h : Habit.t) :
  habit_from_row row = Some old ->
  habit_from_row
    (HabitRow.mk row.(HabitRow.id) h.(Habit.name) h.(Habit.description)
       h.(Habit.category) row.(HabitRow.type) h.(Habit.goal)
       row.(HabitRow.created_at) row.(HabitRow.parent_id)
       (json_dumps_ids h.(Habit.subhabit_ids))) =
  Some (Habit.mk old.(Habit.id) h.(Habit.name) h.(Habit.description) h.(Habit.category)
          old.(Habit.type) h.(Habit.goal) old.(Habit.created_at) old.(Habit.parent_id)
          h.(Habit.subhabit_ids)).
Proof.
  unfold habit_from_row at 1.
  destruct (habit_type_of_value row.(HabitRow.type)) eqn:Et,
    (json_loads_ids row.(HabitRow.subhabit_ids)) eqn:Ej; intros E;
    inversion E; subst; clear E.
  unfold habit_from_row. cbn. rewrite Et, json_loads_dumps. reflexivity.
Qed.

Lemma table_view_lookup (tbl : gmap string HabitRow.t) (k : string) :
  table_view tbl !! k = tbl !! k ≫= habit_from_row.
Proof. unfold table_view. apply lookup_omap. Qed.

Lemma table_ok_lookup (tbl : gmap string HabitRow.t) (k : string) (row : HabitRow.t) :
  table_ok tbl -> tbl !! k = Some row ->
  row.(HabitRow.id) = k /\ is_Some (habit_from_row row).
Proof. intros H E. exact (map_Forall_lookup_1 _ _ _ _ H E). Qed.

Lemma table_ok_insert (tbl : gmap string HabitRow.t) (k : string) (row : HabitRow.t) :
  table_ok tbl -> row.(HabitRow.id) = k -> is_Some (habit_from_row row) ->
  table_ok (<[k := row]> tbl).
Proof. intros H E S. apply map_Forall_insert_2; [split; assumption|exact H]. Qed.

Lemma table_ok_delete (tbl : gmap string HabitRow.t) (k : string) :
  table_ok tbl -> table_ok (delete k tbl).
Proof. intros H. apply map_Forall_delete. exact H. Qed.

Lemma sqlite_get_view (tbl : gmap string HabitRow.t) (k : string) :
  table_ok tbl -> sqlite_habit_get k tbl = SOk (table_view tbl !! k).
Proof.
  intros H. unfold sqlite_habit_get. rewrite table_view_lookup.
  destruct (tbl !! k) as [row|] eqn:E; [|reflexivity]. simpl.
  destruct (table_ok_lookup _ _ _ H E) as [_ [h Hh]]. rewrite Hh. reflexivity.
Qed.

Lemma table_view_id (tbl : gmap string HabitRow.t) (k : string) (h : Habit.t) :
  table_ok tbl -> table_view tbl !! k = Some h -> h.(Habit.id) = k.
Proof.
  intros H E. rewrite table_view_lookup in E.
  destruct (tbl !! k) as [row|] eqn:Er; [|discriminate]. simpl in E.
  rewrite (habit_from_row_id _ _ E). apply (table_ok_lookup _ _ _ H Er).
Qed.

Lemma table_view_insert (tbl : gmap string HabitRow.t) (k : string) (row : HabitRow.t) (h : Habit.t) :
  habit_from_row row = Some h ->
  table_view (<[k := row]> tbl) = <[k := h]> (table_view tbl).
Proof.
  intros E. apply map_eq. intros i. rewrite table_view_lookup.
  destruct (decide (i = k)) as [->|Hne].
  - rewrite !lookup_insert_eq. simpl. exact E.
  - rewrite !lookup_insert_ne by congruence. rewrite table_view_lookup. reflexivity.
Qed.

Lemma table_view_absent (tbl : gmap string HabitRow.t) (k : string) :
  table_ok tbl -> (tbl !! k = None <-> table_view tbl !! k = None).
Proof.
  intros H. rewrite table_view_lookup. destruct (tbl !! k) as [row|] eqn:E; simpl.
  - destruct (table_ok_lookup _ _ _ H E) as [_ [h Hh]]. rewrite Hh. split; discriminate.
  - tauto.
Qed.

(** [add] of a fresh habit, on both backends. *)
Lemma sqlite_add_fresh (h : Habit.t) (tbl : gmap string HabitRow.t) :
  table_ok tbl -> tbl !! h.(Habit.id) = None ->
  sqlite_habit_add h tbl = SOk (<[h.(Habit.id) := habit_to_row h]> tbl) /\
  table_ok (<[h.(Habit.id) := habit_to_row h]> tbl) /\
  table_view (<[h.(Habit.id) := habit_to_row h]> tbl) = <[h.(Habit.id) := h]> (table_view tbl).
Proof.
  intros H E. unfold sqlite_habit_add. rewrite E. split; [reflexivity|split].
  - apply table_ok_insert; [exact H|reflexivity|rewrite habit_from_to_row; eexists; reflexivity].
  - apply table_view_insert, habit_from_to_row.
Qed.

(** [update] with a habit that keeps the stored [id], [type],
    [created_at] and [parent_id], on both backends. *)
Lemma sqlite_update_keeping (h old : Habit.t) (tbl : gmap string HabitRow.t) :
  table_ok tbl -> table_view tbl !! h.(Habit.id) = Some old ->
  h.(Habit.type) = old.(Habit.type) -> h.(Habit.created_at) = old.(Habit.created_at) ->
  h.(Habit.parent_id) = old.(Habit.parent_id) ->
  exists tbl', sqlite_habit_update h tbl = SOk tbl' /\ table_ok tbl' /\
    table_view tbl' = <[h.(Habit.id) := h]> (table_view tbl).
Proof.
  intros H E Ht Hc Hp.
  pose proof (table_view_id _ _ _ H E) as Hid.
  rewrite table_view_lookup in E.
  destruct (tbl !! h.(Habit.id)) as [row|] eqn:Er; [|discriminate]. simpl in E.
  destruct (table_ok_lookup _ _ _ H Er) as [Hrid _].
  unfold sqlite_habit_update. rewrite Er. eexists. split; [reflexivity|].
  pose proof (updated_row_decodes row old h E) as Hd.
  replace (Habit.mk old.(Habit.id) h.(Habit.name) h.(Habit.description)
    h.(Habit.category) old.(Habit.type) h.(Habit.goal) old.(Habit.created_at)
    old.(Habit.parent_id) h.(Habit.subhabit_ids)) with h in Hd
    by (rewrite Hid, <- Ht, <- Hc, <- Hp; destruct old, h; simpl in *; subst; reflexivity).
  split.
  - apply table_ok_insert; [exact H|exact Hrid|rewrite Hd; eexists; reflexivity].
  - apply table_view_insert. exact Hd.
Qed.

Lemma list_ascii_app (a b : string) :
  String.list_ascii_of_string (a ++ b)%string = String.list_ascii_of_string a ++ String.list_ascii_of_string b.
Proof. induction a as [|c a IH]; [reflexivity|]. rewrite string_app_cons. simpl. now rewrite IH. Qed.

Lemma hex_digit_printable (k : nat) : k < 16 -> printable (hex_digit k).
Proof. intros H. unfold printable. do 16 (destruct k as [|k]; [vm_compute; lia|]). lia. Qed.

Ltac solve_printable :=
  repeat first
    [ apply List.Forall_nil
    | apply List.Forall_cons;
      [ first
          [ unfold printable; lia
          | unfold printable; vm_compute; lia
          | apply hex_digit_printable;
            first [apply Nat.mod_upper_bound; lia|apply Nat.Div0.div_lt_upper_bound; lia] ]
      | ] ].

Lemma json_escape_char_printable (c : Ascii.ascii) :
  List.Forall printable (String.list_ascii_of_string (json_escape_char c)).
Proof.
  pose proof (Ascii.nat_ascii_bounded c) as Hb.
  unfold json_escape_char. cbv zeta.
  destruct (Nat.eqb_spec (Ascii.nat_of_ascii c) 34); [simpl; solve_printable|].
  destruct (Nat.eqb_spec (Ascii.nat_of_ascii c) 92); [simpl; solve_printable|].
  do 5 (match goal with |- context [Nat.eqb ?a ?b] =>
          destruct (Nat.eqb_spec a b); [simpl; solve_printable|] end).
  destruct (Nat.leb_spec 32 (Ascii.nat_of_ascii c)), (Nat.leb_spec (Ascii.nat_of_ascii c) 126);
    cbn [andb].
  all: rewrite ?list_ascii_app; cbn -[Nat.div Nat.modulo]; solve_printable.
Qed.

Lemma json_escape_printable (s : string) :
  List.Forall printable (String.list_ascii_of_string (json_escape s)).
Proof.
  induction s as [|c s IH]; [constructor|]. cbn [json_escape].
  rewrite list_ascii_app. apply List.Forall_app. split; [apply json_escape_char_printable|exact IH].
Qed.

Lemma json_encode_string_printable (s : string) :
  List.Forall printable (String.list_ascii_of_string (json_encode_string s)).
Proof.
  unfold json_encode_string. simpl. constructor; [unfold printable; vm_compute; lia|].
  rewrite list_ascii_app. apply List.Forall_app. split; [apply json_escape_printable|].
  simpl. solve_printable.
Qed.

(* ------------------------------------------------------------------ *)
(** ** Properties of db/sqlite.py *)

(** X18. A row written by [add] reads back, through [_habit_from_row],
    as the same habit: [HabitType(habit.type.value)] is the type and
    [json.loads(json.dumps(ids))] is [ids] for every list of ids. *)
Theorem habit_row_round_trip (h : Habit.t) :
  habit_from_row (habit_to_row h) = Some h /\
  (forall ids, json_loads_ids (json_dumps_ids ids) = Some ids).
Proof. split; [apply habit_from_to_row|apply json_loads_dumps]. Qed.

(** X19. The [subhabit_ids] column only ever holds printable ASCII
    ([' '..'~']): [json.dumps] escapes quote, backslash, control and
    non-ASCII characters. *)
Theorem json_dumps_ids_printable (ids : list string) :
  List.Forall printable (String.list_ascii_of_string (json_dumps_ids ids)).
Proof.
  destruct ids as [|x rest]; [simpl; solve_printable|].
  unfold json_dumps_ids. rewrite !list_ascii_app.
  apply List.Forall_app; split; [simpl; solve_printable|].
  apply List.Forall_app; split; [apply json_encode_string_printable|].
  induction rest as [|y ys IH]; cbn [List.fold_right].
  - simpl. solve_printable.
  - rewrite !list_ascii_app. apply List.Forall_app; split; [simpl; solve_printable|].
    apply List.Forall_app; split; [apply json_encode_string_printable|exact IH].
Qed.

(** X20. [add] of a fresh id then [get] returns the habit and keeps the
    other rows; [add] of an id already in the table raises
    [IntegrityError]; [delete] then [get] returns [None], keeps the
    other rows, and does nothing for an absent id. *)
Theorem sqlite_habit_repo_round_trips (h : Habit.t) (k : string) (tbl : gmap string HabitRow.t) :
  (tbl !! h.(Habit.id) = None ->
   exists tbl', sqlite_habit_add h tbl = SOk tbl' /\
     sqlite_habit_get h.(Habit.id) tbl' = SOk (Some h) /\
     (forall k', k' <> h.(Habit.id) -> sqlite_habit_get k' tbl' = sqlite_habit_get k' tbl)) /\
  (is_Some (tbl !! h.(Habit.id)) -> sqlite_habit_add h tbl = SErr IntegrityError) /\
  sqlite_habit_get k (sqlite_habit_delete k tbl) = SOk None /\
  (forall k', k' <> k -> sqlite_habit_get k' (sqlite_habit_delete k tbl) = sqlite_habit_get k' tbl) /\
  (tbl !! k = None -> sqlite_habit_delete k tbl = tbl).
Proof.
  split; [|split; [|split; [|split]]].
  - intros E. unfold sqlite_habit_add. rewrite E. eexists. split; [reflexivity|split].
    + unfold sqlite_habit_get. rewrite lookup_insert_eq, habit_from_to_row. reflexivity.
    + intros k' Hne. unfold sqlite_habit_get. rewrite lookup_insert_ne by congruence.
      reflexivity.
  - intros [row E]. unfold sqlite_habit_add. rewrite E. reflexivity.
  - unfold sqlite_habit_get, sqlite_habit_delete. rewrite lookup_delete_eq. reflexivity.
  - intros k' Hne. unfold sqlite_habit_get, sqlite_habit_delete.
    rewrite lookup_delete_ne by congruence. reflexivity.
  - intros E. unfold sqlite_habit_delete. apply delete_id. exact E.
Qed.

(** X21. [update] raises [KeyError] when no row has the id; otherwise
    [get] then returns the new name, description, category, goal and
    [subhabit_ids], but the [type], [created_at] and [parent_id] of
    the stored row, leaving the other rows and the table's well-formedness. *)
Theorem sqlite_habit_update_get (h old : Habit.t) (tbl : gmap string HabitRow.t) :
  (tbl !! h.(Habit.id) = None -> sqlite_habit_update h tbl = SErr SQLiteKeyError) /\
  (table_ok tbl -> sqlite_habit_get h.(Habit.id) tbl = SOk (Some old) ->
   exists tbl', sqlite_habit_update h tbl = SOk tbl' /\
     sqlite_habit_get h.(Habit.id) tbl' =
       SOk (Some (Habit.mk h.(Habit.id) h.(Habit.name) h.(Habit.description)
                    h.(Habit.category) old.(Habit.type) h.(Habit.goal)
                    old.(Habit.created_at) old.(Habit.parent_id) h.(Habit.subhabit_ids))) /\
     (forall k, k <> h.(Habit.id) -> sqlite_habit_get k tbl' = sqlite_habit_get k tbl) /\
     table_ok tbl').
Proof.
  split.
  - intros E. unfold sqlite_habit_update. rewrite E. reflexivity.
  - intros H G. rewrite (sqlite_get_view _ _ H) in G. injection G as E.
    pose proof (table_view_id _ _ _ H E) as Hid.
    rewrite table_view_lookup in E.
    destruct (tbl !! h.(Habit.id)) as [row|] eqn:Er; [|discriminate]. simpl in E.
    destruct (table_ok_lookup _ _ _ H Er) as [Hrid _].
    unfold sqlite_habit_update. rewrite Er. eexists. split; [reflexivity|].
    pose proof (updated_row_decodes row old h E) as Hd. rewrite Hid in Hd.
    split; [|split].
    + unfold sqlite_habit_get. rewrite lookup_insert_eq, Hd. reflexivity.
    + intros k Hne. unfold sqlite_habit_get. rewrite lookup_insert_ne by congruence.
      reflexivity.
    + apply table_ok_insert; [exact H|exact Hrid|rewrite Hd; eexists; reflexivity].
Qed.

(** X22. On a well-formed table whose habits are those of the in-memory
    store, [HabitService.update_habit] over SQLite gives the same
    outcome and leaves a table decoding to the in-memory store after
    the same call. *)
Theorem sqlite_update_habit_agrees (st : State) (tbl : gmap string HabitRow.t)
    (habit_id : string) (u : HabitUpdate) :
  table_ok tbl -> st.(habits) = table_view tbl ->
  table_ok (fst (sqlite_update_habit habit_id u tbl)) /\
  (fst (update_habit habit_id u st)).(habits) = table_view (fst (sqlite_update_habit habit_id u tbl)) /\
  outcome_matches (snd (update_habit habit_id u st)) (snd (sqlite_update_habit habit_id u tbl)).
Proof.
  intros H Hv. unfold update_habit, sqlite_update_habit, habit_repo_get.
  rewrite (sqlite_get_view _ _ H), <- Hv.
  destruct (st.(habits) !! habit_id) as [old|] eqn:E; [|simpl; auto].
  assert (Ev : table_view tbl !! habit_id = Some old) by congruence.
  pose proof (table_view_id _ _ _ H Ev) as Hid.
  destruct (sqlite_update_keeping (apply_update old u) old tbl H) as (tbl' & U & Ok' & V);
    [simpl; rewrite Hid; exact Ev|reflexivity|reflexivity|reflexivity|].
  rewrite U. unfold habit_repo_update. simpl. rewrite Hid, E. simpl.
  split; [exact Ok'|split; [|reflexivity]]. rewrite V, Hv. simpl. rewrite Hid. reflexivity.
Qed.

(** X23. With a subhabit id not yet in the table, [HabitService.add_subhabit]
    over SQLite gives the same outcome as in memory, and the table
    then decodes to the in-memory store. *)
Theorem sqlite_add_subhabit_agrees (st : State) (tbl : gmap string HabitRow.t)
    (parent_id : string) (sub : Habit.t) :
  table_ok tbl -> st.(habits) = table_view tbl -> tbl !! sub.(Habit.id) = None ->
  table_ok (fst (sqlite_add_subhabit parent_id sub tbl)) /\
  (fst (add_subhabit parent_id sub st)).(habits) = table_view (fst (sqlite_add_subhabit parent_id sub tbl)) /\
  outcome_matches (snd (add_subhabit parent_id sub st)) (snd (sqlite_add_subhabit parent_id sub tbl)).
Proof.
  intros H Hv Hf. unfold add_subhabit, sqlite_add_subhabit, habit_repo_get.
  rewrite (sqlite_get_view _ _ H), <- Hv.
  destruct (st.(habits) !! parent_id) as [parent|] eqn:E; [|simpl; auto].
  assert (Ev : table_view tbl !! parent_id = Some parent) by congruence.
  pose proof (table_view_id _ _ _ H Ev) as Hid.
  assert (Hne : sub.(Habit.id) <> parent_id).
  { intros Heq. apply (table_view_absent _ _ H) in Hf. congruence. }
  destruct (sqlite_add_fresh (set_parent_id sub (Some parent_id)) tbl H Hf)
    as (A & Ok1 & V1).
  rewrite A.
  destruct (sqlite_update_keeping
              (set_subhabit_ids parent (parent.(Habit.subhabit_ids) ++ [sub.(Habit.id)]))
              parent _ Ok1) as (tbl2 & U & Ok2 & V2);
    [rewrite V1; simpl; rewrite Hid, lookup_insert_ne by congruence; exact Ev
    |reflexivity|reflexivity|reflexivity|].
  rewrite U. unfold habit_repo_update, habit_repo_add. simpl.
  rewrite Hid, lookup_insert_ne by congruence. rewrite E. simpl.
  split; [exact Ok2|split; [|reflexivity]].
  rewrite V2, V1, Hv. simpl. rewrite Hid. reflexivity.
Qed.

(** X24. [HabitService.create_habit] with an id already in the table
    raises [IntegrityError] over SQLite and leaves the table, where the
    in-memory repository replaces the stored habit; with a fresh id both
    backends store the habit. *)
Theorem sqlite_create_habit_duplicate (st : State) (tbl : gmap string HabitRow.t) (h : Habit.t) :
  table_ok tbl -> st.(habits) = table_view tbl ->
  (is_Some (tbl !! h.(Habit.id)) ->
   sqlite_create_habit h tbl = (tbl, Raised IntegrityError) /\
   (create_habit h st).(habits) !! h.(Habit.id) = Some h) /\
  (tbl !! h.(Habit.id) = None ->
   sqlite_create_habit h tbl = (<[h.(Habit.id) := habit_to_row h]> tbl, Done tt) /\
   table_ok (fst (sqlite_create_habit h tbl)) /\
   (create_habit h st).(habits) = table_view (fst (sqlite_create_habit h tbl))).
Proof.
  intros H Hv. split.
  - intros [row E]. unfold sqlite_create_habit, sqlite_habit_add. rewrite E.
    split; [reflexivity|]. unfold create_habit, habit_repo_add. simpl. apply lookup_insert_eq.
  - intros E. destruct (sqlite_add_fresh h tbl H E) as (A & Ok' & V).
    unfold sqlite_create_habit. rewrite A. split; [reflexivity|split; [exact Ok'|]].
    simpl. rewrite V, Hv. reflexivity.
Qed.

(** X25. [HabitService.add_subhabit] with a subhabit whose id is already
    in the table (the parent's own id included) raises [IntegrityError]
    over SQLite and leaves the table, where the in-memory service
    succeeds. *)
Theorem sqlite_add_subhabit_duplicate (st : State) (tbl : gmap string HabitRow.t)
    (parent_id : string) (sub : Habit.t) :
  table_ok tbl -> st.(habits) = table_view tbl ->
  is_Some (tbl !! parent_id) -> is_Some (tbl !! sub.(Habit.id)) ->
  sqlite_add_subhabit parent_id sub tbl = (tbl, Raised IntegrityError) /\
  snd (add_subhabit parent_id sub st) = Ok tt.
Proof.
  intros H Hv [prow Ep] [srow Es].
  destruct (table_ok_lookup _ _ _ H Ep) as [_ [parent Hp]].
  assert (Ev : table_view tbl !! parent_id = Some parent)
    by (rewrite table_view_lookup, Ep; exact Hp).
  pose proof (table_view_id _ _ _ H Ev) as Hid.
  split.
  - unfold sqlite_add_subhabit. rewrite (sqlite_get_view _ _ H), Ev.
    unfold sqlite_habit_add. simpl. rewrite Es. reflexivity.
  - unfold add_subhabit, habit_repo_get. rewrite Hv, Ev.
    unfold habit_repo_update, habit_repo_add. simpl. rewrite Hid.
    destruct (decide (sub.(Habit.id) = parent_id)) as [->|Hne].
    + rewrite lookup_insert_eq. reflexivity.
    + rewrite lookup_insert_ne by congruence. rewrite Hv, Ev. reflexivity.
Qed.

Lemma sqlite_update_habit_agrees_witness :
  let h := Habit.mk "p" "Run" None None BOOLEAN None 0 None ["c"] in
  let tbl := <["p" := habit_to_row h]> (∅ : gmap string HabitRow.t) in
  let st := mkState (table_view tbl) [] in
  let u := mkHabitUpdate (Some "Jog") None None (Some 2%Q) in
  table_ok tbl /\ st.(habits) = table_view tbl /\
  outcome_matches (snd (update_habit "p" u st)) (snd (sqlite_update_habit "p" u tbl)).
Proof.
  intros h tbl st u.
  assert (H1 : table_ok tbl) by (apply (bool_decide_unpack _); vm_compute; reflexivity).
  assert (H2 : st.(habits) = table_view tbl) by reflexivity.
  split; [exact H1|split; [exact H2|exact (proj2 (proj2 (sqlite_update_habit_agrees st tbl "p" u H1 H2)))]].
Defined.

Lemma sqlite_add_subhabit_agrees_witness :
  let p := Habit.mk "p" "Run" None None BOOLEAN None 0 None [] in
  let sub := Habit.mk "s" "Stretch" None None BOOLEAN None 1 None [] in
  let tbl := <["p" := habit_to_row p]> (∅ : gmap string HabitRow.t) in
  let st := mkState (table_view tbl) [] in
  table_ok tbl /\ st.(habits) = table_view tbl /\ tbl !! "s" = None /\
  (fst (add_subhabit "p" sub st)).(habits) = table_view (fst (sqlite_add_subhabit "p" sub tbl)).
Proof.
  intros p sub tbl st.
  assert (H1 : table_ok tbl) by (apply (bool_decide_unpack _); vm_compute; reflexivity).
  assert (H2 : st.(habits) = table_view tbl) by reflexivity.
  assert (H3 : tbl !! "s" = None) by reflexivity.
  split; [exact H1|split; [exact H2|split; [exact H3|]]].
  exact (proj1 (proj2 (sqlite_add_subhabit_agrees st tbl "p" sub H1 H2 H3))).
Defined.

Lemma sqlite_create_habit_duplicate_witness :
  let h := Habit.mk "p" "Run" None None BOOLEAN None 0 None [] in
  let h' := Habit.mk "p" "Swim" None None NUMERIC (Some 3%Q) 5 None [] in
  let tbl := <["p" := habit_to_row h]> (∅ : gmap string HabitRow.t) in
  let st := mkState (table_view tbl) [] in
  table_ok tbl /\ st.(habits) = table_view tbl /\
  sqlite_create_habit h' tbl = (tbl, Raised IntegrityError).
Proof.
  intros h h' tbl st.
  assert (H1 : table_ok tbl) by (apply (bool_decide_unpack _); vm_compute; reflexivity).
  assert (H2 : st.(habits) = table_view tbl) by reflexivity.
  assert (H3 : is_Some (tbl !! h'.(Habit.id))) by (eexists; reflexivity).
  split; [exact H1|split; [exact H2|]].
  exact (proj1 (proj1 (sqlite_create_habit_duplicate st tbl h' H1 H2) H3)).
Defined.

Lemma sqlite_add_subhabit_duplicate_witness :
  let p := Habit.mk "p" "Run" None None BOOLEAN None 0 None [] in
  let sub := Habit.mk "p" "Stretch" None None BOOLEAN None 1 None [] in
  let tbl := <["p" := habit_to_row p]> (∅ : gmap string HabitRow.t) in
  let st := mkState (table_view tbl) [] in
  table_ok tbl /\ st.(habits) = table_view tbl /\
  sqlite_add_subhabit "p" sub tbl = (tbl, Raised IntegrityError) /\
  snd (add_subhabit "p" sub st) = Ok tt.
Proof.
  intros p sub tbl st.
  assert (H1 : table_ok tbl) by (apply (bool_decide_unpack _); vm_compute; reflexivity).
  assert (H2 : st.(habits) = table_view tbl) by reflexivity.
  assert (H3 : is_Some (tbl !! "p")) by (eexists; reflexivity).
  assert (H4 : is_Some (tbl !! sub.(Habit.id))) by (eexists; reflexivity).
  split; [exact H1|split; [exact H2|]].
  exact (sqlite_add_subhabit_duplicate st tbl "p" sub H1 H2 H3 H4).
Defined.
